(** * swirlypy: courses, lesson selection and the extraction lifecycle

    A shallow embedding of [swirlypy/course.py] (class [Course]) and the
    properties of its lesson resolver, its YAML loader, the temporary
    extraction directory of packaged courses and the selection loop.

    Conventions of the embedding:
    - Python [str] is [string]; the text is ASCII (code points below 128).
    - Python [int] is [Z].
    - A raised exception is a value of [exn]; a computation that may raise
      returns a [result].
    - Code that touches the console or the disk is a function on [World]
      (explicit state passing) in the monad [M]. *)

From Stdlib Require Import ZArith Ascii String List Lia.
From stdpp Require Import base tactics option list strings pretty gmap.

Local Open Scope string_scope.
Local Open Scope Z_scope.

(** ** Exceptions and results *)

(** Why a [TypeError] was raised. *)
Inductive type_error : Type :=
  | MissingArguments (names : list string)
      (* "missing N required positional arguments: ..." *)
  | MultipleValues (name : string)
      (* "got multiple values for (keyword) argument ..." *)
  | NoLen
      (* "object of type ... has no len()" *)
  | NotSubscriptable.
      (* "... object is not subscriptable" *)

(** The exceptions of the program and of the builtins it calls.  The two
    classes of [course.py] come first.  [KeyboardInterrupt] and [SystemExit]
    derive from [BaseException] only; every other one derives from
    [Exception]. *)
Inductive exn : Type :=
  | NoCoursePresentException
  | NoSuchLessonException (msg : string)
  | EOFError
  | ValueError
  | IndexError
  | KeyError
  | NameError (name : string)
  | AttributeError (attr : string)
  | TypeError (why : type_error)
  | OSError (msg : string)
  | YAMLError (msg : string)
  | KeyboardInterrupt
  | SystemExit.

(** [isinstance(e, Exception)]: what a clause [except Exception] catches. *)
Definition isinstance_Exception (e : exn) : bool :=
  match e with
  | KeyboardInterrupt | SystemExit => false
  | _ => true
  end.

Inductive result (A : Type) : Type :=
  | Return (a : A)
  | Raise (e : exn).
Arguments Return {A} a.
Arguments Raise {A} e.

(** ** Strings: the builtins used by the program *)

Definition ascii_code (c : ascii) : Z := Z.of_nat (nat_of_ascii c).

Definition is_digit (c : ascii) : bool :=
  (48 <=? ascii_code c) && (ascii_code c <=? 57).

Definition digit_value (c : ascii) : Z := ascii_code c - 48.

(** Whitespace skipped by [int()] around a numeral: space, \t, \n, \v, \f, \r. *)
Definition is_int_space (c : ascii) : bool :=
  (ascii_code c =? 32) || ((9 <=? ascii_code c) && (ascii_code c <=? 13)).

(** Whitespace removed by [str.strip()]: the above and the separators
    \x1c .. \x1f. *)
Definition is_space (c : ascii) : bool :=
  is_int_space c || ((28 <=? ascii_code c) && (ascii_code c <=? 31)).

Fixpoint all_int_space (s : string) : bool :=
  match s with
  | EmptyString => true
  | String c s' => is_int_space c && all_int_space s'
  end.

Fixpoint skip_int_space (s : string) : string :=
  match s with
  | EmptyString => EmptyString
  | String c s' => if is_int_space c then skip_int_space s' else s
  end.

(** The digits of a decimal numeral, read left to right.  One underscore
    is allowed between two digits; whitespace may follow the last digit.
    [prev_digit] tells whether the previous character was a digit. *)
Fixpoint int_digits (acc : Z) (prev_digit : bool) (s : string) : option Z :=
  match s with
  | EmptyString => if prev_digit then Some acc else None
  | String c s' =>
      if is_digit c then int_digits (10 * acc + digit_value c) true s'
      else if Ascii.eqb c "_" && prev_digit then int_digits acc false s'
      else if prev_digit && all_int_space s then Some acc
      else None
  end.

(** [int(s)] for a [str] argument: [Some n] is the integer returned, [None]
    is [ValueError].  Whitespace is skipped on both sides, a sign may come
    first, and the digits follow.  (The bound that recent interpreters put
    on the number of digits is not modelled.) *)
Definition int_of_str (s : string) : option Z :=
  match skip_int_space s with
  | EmptyString => None
  | String c s' =>
      if Ascii.eqb c "-" then Z.opp <$> int_digits 0 false s'
      else if Ascii.eqb c "+" then int_digits 0 false s'
      else int_digits 0 false (String c s')
  end.

(** [str(n)] for an [int]: the decimal numeral, with a leading [-] for a
    negative number. *)
Definition str_of_int (n : Z) : string := pretty n.

Fixpoint lstrip (s : string) : string :=
  match s with
  | EmptyString => EmptyString
  | String c s' => if is_space c then lstrip s' else s
  end.

Fixpoint rstrip (s : string) : string :=
  match s with
  | EmptyString => EmptyString
  | String c s' =>
      match rstrip s' with
      | EmptyString => if is_space c then EmptyString else String c EmptyString
      | r => String c r
      end
  end.

(** [s.strip()] *)
Definition strip (s : string) : string := rstrip (lstrip s).

(** [s.split(sep)] for a separator of one character. *)
Fixpoint split (sep : ascii) (s : string) : list string :=
  match s with
  | EmptyString => [EmptyString]
  | String c s' =>
      if Ascii.eqb c sep then EmptyString :: split sep s'
      else match split sep s' with
           | [] => [String c EmptyString]
           | h :: t => String c h :: t
           end
  end.

Definition lower_char (c : ascii) : ascii :=
  if (65 <=? ascii_code c) && (ascii_code c <=? 90)
  then ascii_of_nat (nat_of_ascii c + 32) else c.

(** [s.lower()] *)
Fixpoint lower (s : string) : string :=
  match s with
  | EmptyString => EmptyString
  | String c s' => String (lower_char c) (lower s')
  end.

(** ** Lists: indexing as Python does it *)

(** [l[i]]: a negative index counts from the end; [None] is [IndexError]. *)
Definition getitem {A : Type} (l : list A) (i : Z) : option A :=
  let n := Z.of_nat (length l) in
  let j := if i <? 0 then i + n else i in
  if (0 <=? j) && (j <? n) then l !! Z.to_nat j else None.

(** [l.index(x)]: the position of the first element equal to [x]; [None]
    is [ValueError]. *)
Fixpoint index (x : string) (l : list string) : option nat :=
  match l with
  | [] => None
  | y :: l' => if String.eqb y x then Some 0%nat else S <$> index x l'
  end.

(** ** Lesson resolution: the first part of [Course.execute_lesson] *)

(** Lines 66-89 of [course.py]: from the lesson names and the identifier to
    [lessonname], or the exception raised. *)
Definition resolve_lessonname (lessonnames : list string) (identifier : string)
    : result string :=
  match int_of_str identifier with
  | Some n =>
      (* type(identifier) == int *)
      match getitem lessonnames (n - 1) with
      | Some lessonname => Return lessonname
      | None => Raise (NoSuchLessonException "Invalid lesson index")
      end
  | None =>
      match index identifier lessonnames with
      | Some i =>
          match getitem lessonnames (Z.of_nat i) with
          | Some lessonname => Return lessonname
          | None => Raise IndexError
          end
      | None => Raise (NoSuchLessonException ("Invalid lesson: " +:+ identifier))
      end
  end.

(** What the resolver does with an identifier that [int] accepts: the
    identifier is an index, and only the index is used. *)
Definition resolve_index (lessonnames : list string) (n : Z) : result string :=
  match getitem lessonnames (n - 1) with
  | Some lessonname => Return lessonname
  | None => Raise (NoSuchLessonException "Invalid lesson index")
  end.

(** ** YAML values and the course object *)

Set Warnings "-register-all".

(** What [yaml.safe_load] returns for a document made of nulls, booleans,
    integers, strings, sequences and mappings.  A mapping keeps its items
    in the order of the document. *)
Inductive value : Type :=
  | VNone
  | VBool (b : bool)
  | VInt (n : Z)
  | VStr (s : string)
  | VList (l : list value)
  | VDict (items : list (value * value)).

(** [len(v)] *)
Definition len (v : value) : result Z :=
  match v with
  | VStr s => Return (Z.of_nat (String.length s))
  | VList l => Return (Z.of_nat (length l))
  | VDict items => Return (Z.of_nat (length items))
  | _ => Raise (TypeError NoLen)
  end.

(** Whether a key of a mapping equals the integer [0] ([False == 0]). *)
Definition is_zero_key (k : value) : bool :=
  match k with
  | VInt 0 => true
  | VBool false => true
  | _ => false
  end.

(** [v[0]] *)
Definition getitem0 (v : value) : result value :=
  match v with
  | VList l =>
      match getitem l 0 with
      | Some x => Return x
      | None => Raise IndexError
      end
  | VStr s =>
      match s with
      | String c _ => Return (VStr (String c EmptyString))
      | EmptyString => Raise IndexError
      end
  | VDict items =>
      match List.find (fun kv => is_zero_key (fst kv)) items with
      | Some kv => Return (snd kv)
      | None => Raise KeyError
      end
  | _ => Raise (TypeError NotSubscriptable)
  end.

(** [v.items()] *)
Definition items (v : value) : result (list (value * value)) :=
  match v with
  | VDict kvs => Return kvs
  | _ => Raise (AttributeError "items")
  end.

(** [dict((k.lower(), v) for k, v in kvs)], the pairs taken in order on top
    of [acc]: a later pair replaces an earlier one under the same key, and a
    key that is not a string has no [lower]. *)
Fixpoint lower_keys (acc : gmap string value) (kvs : list (value * value))
    : result (gmap string value) :=
  match kvs with
  | [] => Return acc
  | (VStr k, v) :: kvs' => lower_keys (<[lower k := v]> acc) kvs'
  | _ :: _ => Raise (AttributeError "lower")
  end.

(** The parameters of [Course.__init__] that the call in [load_yaml] leaves
    to the document. *)
Definition required_arguments : list string :=
  ["course"; "lessons"; "author"; "version"].

(** The body of [Course.__init__] (lines 17-23): the attributes of the new
    object, its [__dict__].  [kwargs] is applied last, over the attributes
    already set. *)
Definition Course_body (course lessons author version coursedir : value)
    (kwargs : gmap string value) : result (gmap string value) :=
  match lessons with
  | VStr s =>
      Return (kwargs ∪
        <["coursedir" := coursedir]> (
        <["version" := version]> (
        <["description" := VStr ""]> (
        <["author" := author]> (
        <["lessonnames" := VList (VStr <$> split ";" s)]> (
        <["course" := course]> ∅))))))
  | _ => Raise (AttributeError "split")
  end.

(** The call [cls(coursedir = coursedir, **document)] (line 170): the
    keyword arguments are merged, bound to the parameters of [__init__],
    and the body runs. *)
Definition Course_init (coursedir : value) (document : gmap string value)
    : result (gmap string value) :=
  if bool_decide (is_Some (document !! "coursedir"))
  then Raise (TypeError (MultipleValues "coursedir"))
  else if bool_decide (is_Some (document !! "self"))
  then Raise (TypeError (MultipleValues "self"))
  else
    match document !! "course", document !! "lessons",
          document !! "author", document !! "version" with
    | Some course, Some lessons, Some author, Some version =>
        Course_body course lessons author version coursedir
          (delete "version" (delete "author"
            (delete "lessons" (delete "course" document))))
    | _, _, _, _ =>
        Raise (TypeError (MissingArguments
          (filter (fun k => document !! k = None) required_arguments)))
    end.

(** Lines 163-167 of [Course.load_yaml]: the first element of the parsed
    document [y], its keys in lower case. *)
Definition first_document (y : value) : result (gmap string value) :=
  match len y with
  | Raise e => Raise e
  | Return n =>
      if n <? 1 then Raise NoCoursePresentException
      else
        match getitem0 y with
        | Raise e => Raise e
        | Return first =>
            match items first with
            | Raise e => Raise e
            | Return kvs => lower_keys ∅ kvs
            end
        end
  end.

(** [Course.load_yaml] after [yaml.safe_load]: lines 163-170 on the parsed
    document [y]. *)
Definition load_parsed (y : value) (coursedir : string)
    : result (gmap string value) :=
  match first_document y with
  | Raise e => Raise e
  | Return document => Course_init (VStr coursedir) document
  end.

Section Loader.
(** The YAML parser, an external collaborator: from a file to the parsed
    document, or the parser's exception. *)
Context {File : Type} (safe_load : File -> result value).

(** [Course.load_yaml(cls, file, coursedir)] *)
Definition load_yaml (file : File) (coursedir : string)
    : result (gmap string value) :=
  match safe_load file with
  | Raise e => Raise e
  | Return y => load_parsed y coursedir
  end.
End Loader.

(** The lesson names of a loaded course: its attribute [lessonnames]. *)
Definition lessonnames_of (obj : gmap string value) : option value :=
  obj !! "lessonnames".

(** ** The world: console and disk *)

Record World : Type := mkWorld {
  dirs : list string;     (* the directories present on disk *)
  locked : list string;   (* the directories whose removal fails *)
  tmp_seq : N;            (* how many names [mkdtemp] has handed out *)
  stdin : list string;    (* the lines still to be read *)
  stdout : list string    (* what was written, oldest first *)
}.

Definition set_dirs (ds : list string) (w : World) : World :=
  mkWorld ds (locked w) (tmp_seq w) (stdin w) (stdout w).
Definition set_tmp_seq (n : N) (w : World) : World :=
  mkWorld (dirs w) (locked w) n (stdin w) (stdout w).
Definition set_stdin (ls : list string) (w : World) : World :=
  mkWorld (dirs w) (locked w) (tmp_seq w) ls (stdout w).
Definition write (chunk : string) (w : World) : World :=
  mkWorld (dirs w) (locked w) (tmp_seq w) (stdin w) (stdout w ++ [chunk]).
Definition write_all (chunks : list string) (w : World) : World :=
  mkWorld (dirs w) (locked w) (tmp_seq w) (stdin w) (stdout w ++ chunks).

(** A computation on the world that returns or raises. *)
Definition M (A : Type) : Type := World -> result A * World.

Definition ret {A : Type} (a : A) : M A := fun w => (Return a, w).

Definition raise {A : Type} (e : exn) : M A := fun w => (Raise e, w).

Definition bind {A B : Type} (m : M A) (k : A -> M B) : M B :=
  fun w =>
    match m w with
    | (Return a, w') => k a w'
    | (Raise e, w') => (Raise e, w')
    end.

Definition lift {A : Type} (r : result A) : M A := fun w => (r, w).

Declare Scope M_scope.
Delimit Scope M_scope with M.
Notation "'let*' x ':=' m 'in' k" := (bind m (fun x => k))
  (at level 10, x pattern, m at level 100, k at level 200) : M_scope.
Notation "m '>>' k" := (bind m (fun _ => k))
  (at level 90, right associativity) : M_scope.
Local Open Scope M_scope.

(** [try: body except ...: handler]: [handler e] is [None] when no clause
    matches [e], which then propagates. *)
Definition try_except {A : Type} (body : M A) (handler : exn -> option (M A))
    : M A :=
  fun w =>
    match body w with
    | (Return a, w') => (Return a, w')
    | (Raise e, w') =>
        match handler e with
        | Some h => h w'
        | None => (Raise e, w')
        end
    end.

(** [for x in l: body] *)
Fixpoint for_each {A : Type} (l : list A) (body : A -> M unit) : M unit :=
  match l with
  | [] => ret tt
  | x :: l' => body x >> for_each l' body
  end.

Definition newline : string := String (ascii_of_nat 10) EmptyString.

(** [print(s)] *)
Definition print (s : string) : M unit :=
  fun w => (Return tt, write (s +:+ newline) w).

(** [input(prompt)]: the prompt is written, then a line is read;
    [EOFError] at the end of the input. *)
Definition input (prompt : string) : M string :=
  fun w =>
    let w1 := write prompt w in
    match stdin w1 with
    | [] => (Raise EOFError, w1)
    | line :: rest => (Return line, set_stdin rest w1)
    end.

(** [tempfile.mkdtemp()]: a new directory under a name not handed out
    before. *)
Definition mkdtemp : M string :=
  fun w =>
    let tempdir := "/tmp/tmp" +:+ pretty (tmp_seq w) in
    (Return tempdir, set_tmp_seq (tmp_seq w + 1) (set_dirs (tempdir :: dirs w) w)).

(** Whether [path] is [root] or lies below it. *)
Definition is_under (root path : string) : bool :=
  String.eqb path root || String.prefix (root +:+ "/") path.

(** [shutil.rmtree(path, ignore_errors = True)]: never raises; when the
    removal fails the tree stays. *)
Definition rmtree_ignore_errors (path : string) : M unit :=
  fun w =>
    if bool_decide (path ∈ locked w) then (Return tt, w)
    else (Return tt, set_dirs (filter (fun d => is_under path d = false) (dirs w)) w).

Fixpoint endswith_sep (s : string) : bool :=
  match s with
  | EmptyString => false
  | String c EmptyString => Ascii.eqb c "/"
  | String _ s' => endswith_sep s'
  end.

(** [os.path.join(a, *p)] on POSIX. *)
Definition path_join (a : string) (p : list string) : string :=
  fold_left
    (fun path b =>
       if String.prefix "/" b then b
       else if String.eqb path "" || endswith_sep path then path +:+ b
       else path +:+ "/" +:+ b)
    p a.

(** [enumerate(l)] *)
Definition enumerate {A : Type} (l : list A) : list (Z * A) :=
  imap (fun i x => (Z.of_nat i, x)) l.

(** ** The external collaborators *)

(** The tar archive, the slug function, the lesson files and the lesson
    engine, which the course calls and does not define. *)
Record Env : Type := mkEnv {
  Lesson : Type;
  LessonFile : Type;
  (* tarfile.open(archive).extractall(path = dest) *)
  extractall : string -> string -> M unit;
  (* swirlypy.slug.slugify(name) *)
  slugify : string -> result string;
  (* open(path, "r") *)
  open_r : string -> M LessonFile;
  (* leaving the with block closes the file *)
  close : LessonFile -> World -> World;
  (* swirlypy.lesson.Lesson.load_yaml(f) *)
  Lesson_load_yaml : LessonFile -> M Lesson;
  (* lesson.execute() *)
  Lesson_execute : Lesson -> M unit
}.

(** ** The course and its methods *)

(** A [Course] as its methods use it, after [Course.load] has set
    [pkgname] and [packaged]. *)
Record Course : Type := mkCourse {
  course : string;
  lessonnames : list string;
  author : string;
  description : string;
  version : string;
  coursedir : string;
  pkgname : string;
  packaged : bool
}.

(** [Course.menu] *)
Definition menu (self : Course) : M unit :=
  for_each (enumerate (lessonnames self))
    (fun '(index, lesson) => print (str_of_int (index + 1) +:+ ": " +:+ lesson)).

Inductive loop_control : Type := Continue | Break.

(** Where the body of the [try] can fail. *)
Inductive lesson_stage : Type :=
  | PathConstruction
  | OpeningFile
  | Parsing
  | Executing.

Section Methods.
Context (env : Env).

(** [with open(lessonpath, "r") as f: lesson = Lesson.load_yaml(f)]: the
    file is closed on the way out, also when the body raises. *)
Definition open_and_load (lessonpath : string) : M (Lesson env) :=
  let* f := open_r env lessonpath in
  fun w =>
    match Lesson_load_yaml env f w with
    | (r, w') => (r, close env f w')
    end.

(** Lines 103-120: the body of the [try] of [execute_lesson]. *)
Definition run_lesson (curcoursedir lessonname : string) : M unit :=
  let* slug := lift (slugify env lessonname) in
  let lessonpath := path_join curcoursedir ["lessons"; slug +:+ ".yaml"] in
  let* lesson := open_and_load lessonpath in
  let* data := Lesson_execute env lesson in
  print "" >>
  print ("Lesson " +:+ lessonname +:+ " complete!").

(** The stage [stage] of [run_lesson], started in the world [w], raises
    [e] and leaves the world [w']. *)
Definition fails_at (stage : lesson_stage) (curcoursedir lessonname : string)
    (w : World) (e : exn) (w' : World) : Prop :=
  match stage with
  | PathConstruction => slugify env lessonname = Raise e /\ w' = w
  | OpeningFile =>
      exists slug,
        slugify env lessonname = Return slug
        /\ open_r env (path_join curcoursedir ["lessons"; slug +:+ ".yaml"]) w
           = (Raise e, w')
  | Parsing =>
      exists slug f w1 w2,
        slugify env lessonname = Return slug
        /\ open_r env (path_join curcoursedir ["lessons"; slug +:+ ".yaml"]) w
           = (Return f, w1)
        /\ Lesson_load_yaml env f w1 = (Raise e, w2)
        /\ w' = close env f w2
  | Executing =>
      exists slug f w1 lesson w2,
        slugify env lessonname = Return slug
        /\ open_r env (path_join curcoursedir ["lessons"; slug +:+ ".yaml"]) w
           = (Return f, w1)
        /\ Lesson_load_yaml env f w1 = (Return lesson, w2)
        /\ Lesson_execute env lesson (close env f w2) = (Raise e, w')
  end.

(** Lines 122-128: [except Exception:] removes the temporary directory of
    a packaged course and raises the exception again. *)
Definition cleanup_handler (self : Course) (tempdir : option string)
    (e : exn) : option (M unit) :=
  if isinstance_Exception e then
    Some ((if packaged self then
             match tempdir with
             | Some t => rmtree_ignore_errors t
             | None => raise (NameError "tempdir")
             end
           else ret tt) >>
          raise e)
  else None.

(** Lines 94-101: the directory the lesson files are read from, and the
    temporary directory when one was made. *)
Definition extract (self : Course) : M (option string * string) :=
  if packaged self then
    let* tempdir := mkdtemp in
    extractall env (coursedir self) tempdir >>
    ret (Some tempdir, path_join tempdir [pkgname self])
  else ret (None, coursedir self).

(** [Course.execute_lesson] *)
Definition execute_lesson (self : Course) (identifier : string) : M unit :=
  let* lessonname := lift (resolve_lessonname (lessonnames self) identifier) in
  let* (tempdir, curcoursedir) := extract self in
  try_except (run_lesson curcoursedir lessonname)
    (cleanup_handler self tempdir).

(** Lines 48-50: the body of the [try] of [execute], with the value of
    the local [identifier] when it was bound. *)
Definition select_and_run (self : Course)
    : World -> option string * result unit * World :=
  fun w =>
    match input "Selection: " w with
    | (Raise e, w1) => (None, Raise e, w1)
    | (Return line, w1) =>
        let identifier := strip line in
        match execute_lesson self identifier w1 with
        | (r, w2) => (Some identifier, r, w2)
        end
    end.

(** One turn of the [while True] of [Course.execute]. *)
Definition execute_iteration (self : Course) : M loop_control :=
  menu self >>
  fun w =>
    match select_and_run self w with
    | (_, Return _, w') => (Return Continue, w')
    | (Some identifier, Raise (NoSuchLessonException _), w') =>
        (print ("No lesson: " +:+ identifier) >> ret Continue) w'
    | (None, Raise (NoSuchLessonException _), w') =>
        (Raise (NameError "identifier"), w')
    | (_, Raise EOFError, w') =>
        (print "" >> print "Bye!" >> ret Break) w'
    | (_, Raise e, w') => (Raise e, w')
    end.

(** [Course.execute]: at most [fuel] turns of the loop; [None] when the
    loop is still running after them. *)
Fixpoint execute (fuel : nat) (self : Course) (w : World)
    : option (result unit * World) :=
  match fuel with
  | O => None
  | S fuel' =>
      match execute_iteration self w with
      | (Return Continue, w') => execute fuel' self w'
      | (Return Break, w') => Some (Return tt, w')
      | (Raise e, w') => Some (Raise e, w')
      end
  end.
End Methods.


(** What [menu] prints. *)
Definition menu_text (self : Course) : list string :=
  (fun '(index, lesson) => (str_of_int (index + 1) +:+ ": " +:+ lesson) +:+ newline)
    <$> enumerate (lessonnames self).


(** The farewell of the loop. *)
Definition farewell (w : World) : World :=
  write ("Bye!" +:+ newline) (write newline w).

(** ** A small course to run the definitions on *)

Definition demo_lessons : list string := ["Intro"; "Basics"; "Advanced"].

(** A packaged course: the archive [/courses/demo.tar.gz]. *)
Definition demo_course : Course :=
  mkCourse "Demo" demo_lessons "A. Teacher" "" "1"
    "/courses/demo.tar.gz" "demo" true.

(** An empty disk and console, with the lines [lines] waiting on the input. *)
Definition demo_world (lines : list string) : World :=
  mkWorld [] [] 0 lines [].

(** Collaborators that succeed without touching the world, except that
    extracting the archive ends as [extraction] says and running a lesson
    as [run] says.  The slug of a name is the name in lower case. *)
Definition demo_env (extraction run : M unit) : Env :=
  mkEnv unit unit
    (fun _ _ => extraction)
    (fun name => Return (lower name))
    (fun _ => ret tt)
    (fun _ w => w)
    (fun _ => ret tt)
    (fun _ => run).

(** A parser that finds in the file the document itself. *)
Definition parsed_file (y : value) : result value := Return y.

Definition demo_document (extra : list (value * value)) : value :=
  VList [VDict ([(VStr "Course", VStr "Demo");
                 (VStr "Lessons", VStr "Intro;Basics;Advanced");
                 (VStr "Author", VStr "A. Teacher");
                 (VStr "Version", VInt 1)] ++ extra)].

(** A lesson of a packaged course that crashes while it runs. *)
Definition crashing_env : Env := demo_env (ret tt) (raise (OSError "lesson crashed")).

(** A document whose only field is the name of the course. *)
Definition partial_document : value := VList [VDict [(VStr "Course", VStr "Demo")]].

(** A document whose only field is [CourseDir]. *)
Definition relocated_document : value :=
  VList [VDict [(VStr "CourseDir", VStr "/elsewhere")]].

(** The first element of [demo_document []], its keys in lower case. *)
Definition demo_fields : gmap string value :=
  <["version" := VInt 1]> (<["author" := VStr "A. Teacher"]> (
  <["lessons" := VStr "Intro;Basics;Advanced"]> (
  <["course" := VStr "Demo"]> ∅))).

(** The course object loaded from [demo_document []] in [/courses/demo]. *)
Definition demo_object : gmap string value :=
  <["coursedir" := VStr "/courses/demo"]> (<["version" := VInt 1]> (
  <["description" := VStr ""]> (<["author" := VStr "A. Teacher"]> (
  <["lessonnames" := VList [VStr "Intro"; VStr "Basics"; VStr "Advanced"]]> (
  <["course" := VStr "Demo"]> ∅))))).

(** ** The rest of the class: [Course.print] and [Course.load] *)

(** [Course.print] (lines 25-32) *)
Definition Course_print (self : Course) : M unit :=
  if 0 <? Z.of_nat (String.length (description self))
  then print (course self +:+ " by " +:+ author self +:+ ": " +:+ description self)
  else print (course self +:+ " by " +:+ author self).

(** [os.path.basename(p)] on POSIX, [p[p.rfind("/") + 1:]]: [p] is read from
    the left, and [cur] is what follows the last "/" read so far. *)
Fixpoint basename_from (cur p : string) : string :=
  match p with
  | EmptyString => cur
  | String c p' =>
      if Ascii.eqb c "/" then basename_from p' p' else basename_from cur p'
  end.

Definition basename (p : string) : string := basename_from p p.

(** Line 135: [os.path.basename(coursedir).split(".")[0]] *)
Definition pkgname_of (coursedir : string) : result string :=
  match getitem (split "." (basename coursedir)) 0 with
  | Some name => Return name
  | None => Raise IndexError
  end.

Section Load.
(** The file system and the YAML parser, as [Course.load] calls them. *)
Context {File : Type}
  (* os.path.isfile(path) *)
  (isfile : string -> World -> bool)
  (* tarfile.open(archive).extractfile(member) *)
  (extractfile : string -> string -> M File)
  (* open(path, "r") *)
  (open_text : string -> M File)
  (* leaving the with block closes the file *)
  (close_file : File -> World -> World)
  (* yaml.safe_load(file) *)
  (safe_load : File -> result value).

(** Lines 141-143: the file [course.yaml] of a packaged or raw course. *)
Definition open_course_yaml (coursedir pkgname : string) (is_packaged : bool)
    : M File :=
  if is_packaged
  then extractfile coursedir (path_join pkgname ["course.yaml"])
  else open_text (path_join coursedir ["course.yaml"]).

(** [Course.load(cls, coursedir)] *)
Definition load (coursedir : string) : M (gmap string value) :=
  let* pkgname := lift (pkgname_of coursedir) in
  fun w =>
    let is_packaged := isfile coursedir w in
    (let* f := open_course_yaml coursedir pkgname is_packaged in
     fun w1 =>
       match load_yaml safe_load f coursedir with
       | Return course =>
           (Return (<["packaged" := VBool is_packaged]> (
                    <["pkgname" := VStr pkgname]> course)),
            close_file f w1)
       | Raise e => (Raise e, close_file f w1)
       end) w.
End Load.

(** ** Words to state the properties with *)

(** [sep.join(l)] for a separator of one character. *)
Fixpoint join (sep : ascii) (l : list string) : string :=
  match l with
  | [] => EmptyString
  | s :: l' =>
      match l' with
      | [] => s
      | _ :: _ => s +:+ String sep (join sep l')
      end
  end.

(** [s.count(c)] for one character. *)
Fixpoint occurs (c : ascii) (s : string) : nat :=
  match s with
  | EmptyString => 0%nat
  | String c' s' => ((if Ascii.eqb c' c then 1 else 0) + occurs c s')%nat
  end.

(** The keys of the pairs in lower case, the pairs otherwise as they are. *)
Definition lower_key (kv : value * value) : value * value :=
  match kv with
  | (VStr k, v) => (VStr (lower k), v)
  | _ => kv
  end.

(** The constructor accepts the lower-cased document [document]: it has
    the four fields, [lessons] as a string [s], and neither [coursedir] nor
    [self]. *)
Definition accepted (document : gmap string value) (s : string) : Prop :=
  document !! "coursedir" = None
  /\ document !! "self" = None
  /\ is_Some (document !! "course")
  /\ document !! "lessons" = Some (VStr s)
  /\ is_Some (document !! "author")
  /\ is_Some (document !! "version").

(** Collaborators of a packaged course in which the lesson reaches the end
    of the input and one in which it is interrupted. *)
Definition eof_env : Env := demo_env (ret tt) (raise EOFError).
Definition interrupted_env : Env := demo_env (ret tt) (raise KeyboardInterrupt).


(** The same course as a directory. *)
Definition raw_course : Course :=
  mkCourse "Demo" demo_lessons "A. Teacher" "" "1" "/courses/demo" "demo" false.

(** A file system with one archive, and files that are their own parsed
    content. *)
Definition demo_isfile (path : string) (w : World) : bool :=
  String.eqb path "/courses/demo.tar.gz".
Definition demo_extractfile (y : value) (archive member : string) : M value :=
  ret y.
Definition demo_open_text (y : value) (path : string) : M value := ret y.
Definition demo_close (f : value) (w : World) : World := w.

(** The course that [load] makes of the archive holding [demo_document []]. *)
Definition demo_loaded : gmap string value :=
  <["packaged" := VBool true]> (<["pkgname" := VStr "demo"]> (
  <["coursedir" := VStr "/courses/demo.tar.gz"]> demo_object)).

(** * Properties *)

(** ** Numerals: [int] after [str] *)

Lemma pretty_N_char_digit (x : N) :
  (x < 10)%N ->
  is_digit (pretty_N_char x) = true /\ digit_value (pretty_N_char x) = Z.of_N x.
Proof.
  intros Hx.
  assert (x = 0 \/ x = 1 \/ x = 2 \/ x = 3 \/ x = 4 \/ x = 5 \/ x = 6
          \/ x = 7 \/ x = 8 \/ x = 9)%N as Hcases by lia.
  repeat (destruct Hcases as [-> | Hcases]; [split; reflexivity |]).
  subst x. split; reflexivity.
Qed.

Lemma is_digit_plain (c : ascii) :
  is_digit c = true ->
  is_int_space c = false /\ Ascii.eqb c "-" = false /\ Ascii.eqb c "+" = false.
Proof.
  destruct c as [[] [] [] [] [] [] [] []]; vm_compute; intros; auto; discriminate.
Qed.

(** Reading the digits that [pretty_N_go x] puts in front of [s] brings the
    accumulator from [0] to [x]. *)
Lemma int_digits_pretty_N_go (x : N) (s : string) (b : bool) :
  (0 < x)%N ->
  int_digits 0 b (pretty_N_go x s) = int_digits (Z.of_N x) true s.
Proof.
  revert s b. induction (N.lt_wf_0 x) as [x _ IH]. intros s b Hx.
  rewrite pretty_N_go_step by done.
  destruct (pretty_N_char_digit (x `mod` 10)%N) as [Hd Hv].
  { apply N.mod_lt. lia. }
  destruct (decide (x `div` 10 = 0)%N) as [Hz | Hnz].
  - rewrite Hz, pretty_N_go_0. cbn [int_digits]. rewrite Hd, Hv. f_equal.
    pose proof (N.div_mod x 10 ltac:(lia)). lia.
  - rewrite IH; [| apply N.div_lt; lia | by apply N.neq_0_lt_0].
    cbn [int_digits]. rewrite Hd, Hv. f_equal.
    pose proof (N.div_mod x 10 ltac:(lia)). lia.
Qed.

(** A positive number is printed with a digit in front. *)
Lemma pretty_N_go_head (x : N) (s : string) :
  (0 < x)%N ->
  exists c r, pretty_N_go x s = String c r /\ is_digit c = true.
Proof.
  revert s. induction (N.lt_wf_0 x) as [x _ IH]. intros s Hx.
  rewrite pretty_N_go_step by done.
  destruct (decide (x `div` 10 = 0)%N) as [Hz | Hnz].
  - rewrite Hz, pretty_N_go_0. eexists _, _. split; [reflexivity |].
    apply pretty_N_char_digit, N.mod_lt. lia.
  - apply IH; [apply N.div_lt; lia | by apply N.neq_0_lt_0].
Qed.

Lemma int_of_str_pretty_pos (p : positive) :
  int_digits 0 false (pretty_N_go (N.pos p) "") = Some (Z.pos p)
  /\ int_of_str (pretty_N_go (N.pos p) "") = Some (Z.pos p).
Proof.
  assert (int_digits 0 false (pretty_N_go (N.pos p) "") = Some (Z.pos p)) as Hd.
  { rewrite int_digits_pretty_N_go by lia. reflexivity. }
  split; [exact Hd |].
  destruct (pretty_N_go_head (N.pos p) "") as (c & r & Heq & Hc); [lia |].
  rewrite Heq in Hd |- *.
  destruct (is_digit_plain c Hc) as (Hsp & Hminus & Hplus).
  unfold int_of_str. cbn [skip_int_space]. rewrite Hsp, Hminus, Hplus. exact Hd.
Qed.

(** [int(str(n)) == n] *)
Lemma int_of_str_of_int (n : Z) : int_of_str (str_of_int n) = Some n.
Proof.
  destruct n as [| p | p]; [reflexivity | |].
  - apply (int_of_str_pretty_pos p).
  - unfold str_of_int, pretty, pretty_Z, pretty, pretty_positive, pretty, pretty_N.
    rewrite decide_False by done.
    change ("-" +:+ ?s) with (String "-" s).
    unfold int_of_str. cbn [skip_int_space].
    change (is_int_space "-") with false. cbv iota.
    change (Ascii.eqb "-" "-") with true. cbv iota.
    rewrite (proj1 (int_of_str_pretty_pos p)). reflexivity.
Qed.

(** ** Indexing and searching a list *)

Lemma getitem_nonneg {A : Type} (l : list A) (i : Z) :
  0 <= i -> getitem l i = l !! Z.to_nat i.
Proof.
  intros Hi. unfold getitem.
  destruct (Z.ltb_spec i 0) as [? | _]; [lia |].
  destruct (Z.leb_spec 0 i) as [_ | ?]; [| lia].
  destruct (Z.ltb_spec i (Z.of_nat (length l))) as [? | Hge]; [reflexivity |].
  symmetry. apply lookup_ge_None. lia.
Qed.

Lemma getitem_negative {A : Type} (l : list A) (i : Z) :
  i < 0 ->
  getitem l i =
    if 0 <=? i + Z.of_nat (length l)
    then l !! Z.to_nat (i + Z.of_nat (length l)) else None.
Proof.
  intros Hi. unfold getitem.
  destruct (Z.ltb_spec i 0) as [_ | ?]; [| lia].
  destruct (Z.leb_spec 0 (i + Z.of_nat (length l))); [| reflexivity].
  destruct (Z.ltb_spec (i + Z.of_nat (length l)) (Z.of_nat (length l)));
    [reflexivity | lia].
Qed.

Lemma getitem_out_of_range {A : Type} (l : list A) (i : Z) :
  Z.of_nat (length l) <= i \/ i < - Z.of_nat (length l) -> getitem l i = None.
Proof.
  intros [Hi | Hi].
  - rewrite getitem_nonneg by lia. apply lookup_ge_None. lia.
  - rewrite getitem_negative by lia.
    destruct (Z.leb_spec 0 (i + Z.of_nat (length l))); [lia | reflexivity].
Qed.

(** [index] returns the first position that holds [x]. *)
Lemma index_Some (x : string) (l : list string) (i : nat) :
  index x l = Some i ->
  l !! i = Some x /\ forall j, (j < i)%nat -> l !! j <> Some x.
Proof.
  revert i. induction l as [| y l IH]; intros i; cbn [index]; [discriminate |].
  destruct (String.eqb_spec y x) as [-> | Hne].
  - intros [= <-]. split; [reflexivity | intros j Hj; lia].
  - destruct (index x l) as [i' |] eqn:Hidx; [| discriminate].
    intros [= <-]. destruct (IH i' eq_refl) as [Hat Hfirst].
    split; [exact Hat |].
    intros [| j] Hj; cbn; [congruence | apply Hfirst; lia].
Qed.

Lemma index_None (x : string) (l : list string) :
  index x l = None <-> x ∉ l.
Proof.
  induction l as [| y l IH]; cbn [index].
  - split; [intros _; apply not_elem_of_nil | reflexivity].
  - rewrite not_elem_of_cons.
    destruct (String.eqb_spec y x) as [-> | Hne].
    + split; [discriminate | intros [? _]; congruence].
    + destruct (index x l); cbn.
      * split; [discriminate |]. intros [_ Hnot]. by apply IH in Hnot.
      * split; [| reflexivity]. intros _. split; [congruence | by apply IH].
Qed.

Lemma index_found (x : string) (l : list string) :
  x ∈ l -> exists i, index x l = Some i.
Proof.
  intros Hin. destruct (index x l) as [i |] eqn:Hidx; [by exists i |].
  by apply index_None in Hidx.
Qed.

(** ** The lesson resolver *)

Lemma resolve_lessonname_int (l : list string) (s : string) (n : Z) :
  int_of_str s = Some n -> resolve_lessonname l s = resolve_index l n.
Proof. intros Hn. unfold resolve_lessonname, resolve_index. by rewrite Hn. Qed.

(** An index above the length, or not above minus the length, is refused. *)
Lemma resolve_index_out_of_range (l : list string) (s : string) (n : Z) :
  int_of_str s = Some n ->
  Z.of_nat (length l) < n \/ n <= - Z.of_nat (length l) ->
  resolve_lessonname l s = Raise (NoSuchLessonException "Invalid lesson index").
Proof.
  intros Hn Hrange. rewrite (resolve_lessonname_int l s n Hn).
  unfold resolve_index. rewrite getitem_out_of_range; [reflexivity | lia].
Qed.

(** An index from [1 - len] to [0] counts from the end of the list: [0] is
    the last lesson. *)
Lemma resolve_index_wraps (l : list string) (s : string) (n : Z) :
  int_of_str s = Some n ->
  - Z.of_nat (length l) < n <= 0 ->
  exists lessonname,
    l !! Z.to_nat (Z.of_nat (length l) + n - 1) = Some lessonname
    /\ resolve_lessonname l s = Return lessonname.
Proof.
  intros Hn Hrange. rewrite (resolve_lessonname_int l s n Hn).
  unfold resolve_index. rewrite getitem_negative by lia.
  destruct (Z.leb_spec 0 (n - 1 + Z.of_nat (length l))); [| lia].
  replace (n - 1 + Z.of_nat (length l)) with (Z.of_nat (length l) + n - 1) by lia.
  destruct (lookup_lt_is_Some_2 l (Z.to_nat (Z.of_nat (length l) + n - 1)))
    as [x Hx]; [lia |].
  exists x. by rewrite Hx.
Qed.

(** C2: an index that is zero or negative must be refused with
    NoSuchLesson; here is what the code does with the selector "0" (and
    "-1", "-2") on a course of three lessons: it resolves them, counting
    from the end of the list, and refuses only from "-3" down. *)
Theorem resolve_zero_and_negative_index :
  resolve_lessonname ["Intro"; "Basics"; "Advanced"] "0" = Return "Advanced"
  /\ resolve_lessonname ["Intro"; "Basics"; "Advanced"] "-1" = Return "Basics"
  /\ resolve_lessonname ["Intro"; "Basics"; "Advanced"] "-2" = Return "Intro"
  /\ resolve_lessonname ["Intro"; "Basics"; "Advanced"] "-3"
     = Raise (NoSuchLessonException "Invalid lesson index").
Proof. repeat split; reflexivity. Qed.

(** C3: for a list of lesson names and an integer [i] from 1 to the length
    of the list, resolving the decimal numeral of [i] yields the name at
    position [i - 1]. *)
Theorem resolve_valid_index (l : list string) (i : Z) :
  1 <= i <= Z.of_nat (length l) ->
  exists lessonname,
    l !! Z.to_nat (i - 1) = Some lessonname
    /\ resolve_lessonname l (str_of_int i) = Return lessonname.
Proof.
  intros Hi.
  rewrite (resolve_lessonname_int l _ i (int_of_str_of_int i)).
  unfold resolve_index. rewrite getitem_nonneg by lia.
  destruct (lookup_lt_is_Some_2 l (Z.to_nat (i - 1))) as [x Hx]; [lia |].
  exists x. by rewrite Hx.
Qed.

Lemma resolve_valid_index_witness :
  exists lessonname,
    demo_lessons !! Z.to_nat (2 - 1) = Some lessonname
    /\ resolve_lessonname demo_lessons (str_of_int 2) = Return lessonname.
Proof. apply (resolve_valid_index demo_lessons 2). cbn. lia. Defined.

(** C4: for a selector that [int] rejects: when it equals an element of the
    list, the resolver yields the first such element (the element at the
    least position holding the selector); when it equals none, the
    resolver fails with NoSuchLesson. *)
Theorem resolve_by_name (l : list string) (s : string) :
  int_of_str s = None ->
  (s ∈ l ->
     exists i, l !! i = Some s
       /\ (forall j, (j < i)%nat -> l !! j <> Some s)
       /\ index s l = Some i
       /\ resolve_lessonname l s = Return s)
  /\ (s ∉ l ->
      resolve_lessonname l s = Raise (NoSuchLessonException ("Invalid lesson: " +:+ s))).
Proof.
  intros Hint. unfold resolve_lessonname. rewrite Hint. split.
  - intros Hin. destruct (index_found s l Hin) as [i Hidx].
    destruct (index_Some s l i Hidx) as [Hat Hfirst].
    exists i. rewrite Hidx. repeat split; try done.
    rewrite getitem_nonneg by lia. by rewrite Nat2Z.id, Hat.
  - intros Hnot. apply index_None in Hnot. by rewrite Hnot.
Qed.

Lemma resolve_by_name_witness :
  ("Advanced" ∈ demo_lessons ->
     exists i, demo_lessons !! i = Some "Advanced"
       /\ (forall j, (j < i)%nat -> demo_lessons !! j <> Some "Advanced")
       /\ index "Advanced" demo_lessons = Some i
       /\ resolve_lessonname demo_lessons "Advanced" = Return "Advanced")
  /\ ("Advanced" ∉ demo_lessons ->
      resolve_lessonname demo_lessons "Advanced"
      = Raise (NoSuchLessonException ("Invalid lesson: " +:+ "Advanced"))).
Proof. apply (resolve_by_name demo_lessons "Advanced"). reflexivity. Defined.

Lemma getitem_fmap {A B : Type} (f : A -> B) (l : list A) (i : Z) :
  getitem (f <$> l) i = f <$> getitem l i.
Proof.
  unfold getitem. rewrite length_fmap.
  destruct (_ && _); [apply list_lookup_fmap | reflexivity].
Qed.

(** C5: for a selector that [int] accepts as [n], the resolver looks up the
    index [n] and nothing else: the outcome is a function of the list and
    of [n], the same for every spelling of [n]; no name is compared, since
    renaming the lessons renames the outcome and changes nothing else; and
    a lesson that bears the selector as its name is returned only when it
    sits at the position the index designates. *)
Theorem resolve_integer_is_index (l : list string) (s : string) (n : Z) :
  int_of_str s = Some n ->
  resolve_lessonname l s = resolve_index l n
  /\ (forall s', int_of_str s' = Some n ->
        resolve_lessonname l s' = resolve_lessonname l s)
  /\ (forall rename : string -> string,
        resolve_lessonname (rename <$> l) s =
          match resolve_lessonname l s with
          | Return lessonname => Return (rename lessonname)
          | Raise e => Raise e
          end)
  /\ (s ∈ l -> resolve_lessonname l s = Return s -> getitem l (n - 1) = Some s).
Proof.
  intros Hn. rewrite !(resolve_lessonname_int _ s n Hn). repeat split.
  - intros s' Hn'. apply resolve_lessonname_int, Hn'.
  - intros rename. rewrite (resolve_lessonname_int _ s n Hn).
    unfold resolve_index. rewrite getitem_fmap.
    by destruct (getitem l (n - 1)).
  - intros _. unfold resolve_index.
    destruct (getitem l (n - 1)); [by intros [= ->] | discriminate].
Qed.

Lemma resolve_integer_is_index_witness :
  resolve_lessonname ["2"; "Basics"] "2" = resolve_index ["2"; "Basics"] 2
  /\ (forall s', int_of_str s' = Some 2 ->
        resolve_lessonname ["2"; "Basics"] s' = resolve_lessonname ["2"; "Basics"] "2")
  /\ (forall rename : string -> string,
        resolve_lessonname (rename <$> ["2"; "Basics"]) "2" =
          match resolve_lessonname ["2"; "Basics"] "2" with
          | Return lessonname => Return (rename lessonname)
          | Raise e => Raise e
          end)
  /\ ("2" ∈ ["2"; "Basics"] ->
      resolve_lessonname ["2"; "Basics"] "2" = Return "2" ->
      getitem ["2"; "Basics"] (2 - 1) = Some "2").
Proof. apply (resolve_integer_is_index ["2"; "Basics"] "2" 2). reflexivity. Defined.

(** The lesson named "2" is not what the selector "2" runs. *)
Example numeral_name_is_an_index :
  resolve_lessonname ["2"; "Basics"] "2" = Return "Basics".
Proof. reflexivity. Qed.

(** ** Loading a course *)

Lemma split_nonempty (sep : ascii) (s : string) : (0 < length (split sep s))%nat.
Proof.
  induction s as [| c s IH]; cbn [split]; [cbn; lia |].
  destruct (Ascii.eqb c sep); [cbn; lia |].
  destruct (split sep s); cbn in *; lia.
Qed.

(** Of a document that is a non-empty list, the first element is read and
    the others are not. *)
Lemma first_document_cons (first : value) (rest : list value) :
  first_document (VList (first :: rest)) =
    match items first with
    | Raise e => Raise e
    | Return kvs => lower_keys ∅ kvs
    end.
Proof.
  unfold first_document. cbn [len].
  destruct (Z.ltb_spec (Z.of_nat (length (first :: rest))) 1) as [Hlt | _].
  { cbn [length] in Hlt. lia. }
  cbn [getitem0]. rewrite getitem_nonneg by lia. reflexivity.
Qed.

(** What [Course_init] returns when the document has the four fields and
    neither [coursedir] nor [self]. *)
Lemma Course_init_Return (coursedir : value) (document obj : gmap string value) :
  Course_init coursedir document = Return obj ->
  exists course lessons author version,
    document !! "course" = Some course
    /\ document !! "lessons" = Some lessons
    /\ document !! "author" = Some author
    /\ document !! "version" = Some version
    /\ Course_body course lessons author version coursedir
         (delete "version" (delete "author"
           (delete "lessons" (delete "course" document)))) = Return obj.
Proof.
  unfold Course_init. repeat case_bool_decide; try discriminate.
  destruct (document !! "course") as [c |]; [| discriminate].
  destruct (document !! "lessons") as [l |]; [| discriminate].
  destruct (document !! "author") as [a |]; [| discriminate].
  destruct (document !! "version") as [v |]; [| discriminate].
  intros Hbody. by exists c, l, a, v.
Qed.

(** C7, as the code has it: after a successful load of a document whose
    first element has no key that reads [lessonnames] in lower case, the
    lesson names are the [lessons] field split on ";", a list of at least
    one element (one empty name for an empty field). *)
Theorem loaded_lessonnames_nonempty {File : Type}
    (safe_load : File -> result value) (file : File) (coursedir : string)
    (y : value) (document obj : gmap string value) :
  safe_load file = Return y ->
  first_document y = Return document ->
  document !! "lessonnames" = None ->
  load_yaml safe_load file coursedir = Return obj ->
  exists s,
    document !! "lessons" = Some (VStr s)
    /\ lessonnames_of obj = Some (VList (VStr <$> split ";" s))
    /\ (0 < length (split ";" s))%nat
    /\ (s = "" -> lessonnames_of obj = Some (VList [VStr ""])).
Proof.
  intros Hy Hdoc Hfree. unfold load_yaml, load_parsed. rewrite Hy, Hdoc.
  intros Hinit.
  destruct (Course_init_Return _ _ _ Hinit)
    as (c & l & a & v & Hc & Hl & Ha & Hv & Hbody).
  unfold Course_body in Hbody. destruct l as [| | | s | |]; try discriminate.
  injection Hbody as <-. exists s.
  assert (lessonnames_of
            (delete "version" (delete "author" (delete "lessons" (delete "course" document)))
             ∪ <["coursedir" := VStr coursedir]> (<["version" := v]> (
               <["description" := VStr ""]> (<["author" := a]> (
               <["lessonnames" := VList (VStr <$> split ";" s)]> (
               <["course" := c]> ∅))))))
          = Some (VList (VStr <$> split ";" s))) as Hnames.
  { unfold lessonnames_of. rewrite lookup_union_r.
    - by simplify_map_eq.
    - by rewrite !lookup_delete_ne. }
  repeat split; [exact Hl | exact Hnames | apply split_nonempty |].
  intros ->. exact Hnames.
Qed.

Lemma loaded_lessonnames_nonempty_witness :
  exists s,
    demo_fields !! "lessons" = Some (VStr s)
    /\ lessonnames_of demo_object = Some (VList (VStr <$> split ";" s))
    /\ (0 < length (split ";" s))%nat
    /\ (s = "" -> lessonnames_of demo_object = Some (VList [VStr ""])).
Proof.
  apply (loaded_lessonnames_nonempty parsed_file (demo_document []) "/courses/demo"
           (demo_document []) demo_fields demo_object).
  - reflexivity.
  - vm_compute. reflexivity.
  - vm_compute. reflexivity.
  - vm_compute. reflexivity.
Defined.

(** C7 fails as stated: a document with a field [LessonNames] loads, and
    the value of that field replaces the split [lessons]; here the loaded
    course has no lesson name at all. *)
Lemma loaded_lessonnames_can_be_empty :
  exists obj,
    load_yaml parsed_file (demo_document [(VStr "LessonNames", VList [])])
      "/courses/demo" = Return obj
    /\ lessonnames_of obj = Some (VList []).
Proof. eexists. split; vm_compute; reflexivity. Qed.

Lemma Course_init_missing (coursedir : value) (document : gmap string value)
    (k : string) :
  k ∈ required_arguments ->
  document !! k = None ->
  document !! "coursedir" = None ->
  document !! "self" = None ->
  Course_init coursedir document =
    Raise (TypeError (MissingArguments
      (filter (fun k => document !! k = None) required_arguments))).
Proof.
  intros Hk Hnone Hcd Hself. unfold Course_init.
  rewrite Hcd, Hself.
  rewrite !bool_decide_eq_false_2 by (intros [? ?]; discriminate).
  unfold required_arguments in Hk.
  repeat (apply elem_of_cons in Hk as [-> | Hk]); [| | | | by apply elem_of_nil in Hk];
    rewrite Hnone; repeat case_match; reflexivity.
Qed.

(** C10, as the code has it: when the first element of the document is a
    mapping with string keys that, in lower case, lacks one of [course],
    [lessons], [author], [version], the load raises a [TypeError] from the
    call of the constructor, never NoCoursePresent, and returns no course.
    The [TypeError] is the one for missing arguments, naming the absent
    fields, unless the mapping has a key [coursedir] or [self]: that key is
    reported first, as an argument given twice. *)
Theorem load_yaml_missing_field {File : Type} (safe_load : File -> result value)
    (file : File) (coursedir : string) (kvs : list (value * value))
    (rest : list value) (document : gmap string value) (k : string) :
  safe_load file = Return (VList (VDict kvs :: rest)) ->
  lower_keys ∅ kvs = Return document ->
  k ∈ required_arguments ->
  document !! k = None ->
  exists why,
    load_yaml safe_load file coursedir = Raise (TypeError why)
    /\ load_yaml safe_load file coursedir <> Raise NoCoursePresentException
    /\ (forall obj, load_yaml safe_load file coursedir <> Return obj)
    /\ (document !! "coursedir" = None -> document !! "self" = None ->
        why = MissingArguments
                (filter (fun k => document !! k = None) required_arguments)
        /\ k ∈ filter (fun k => document !! k = None) required_arguments)
    /\ (is_Some (document !! "coursedir") -> why = MultipleValues "coursedir")
    /\ (document !! "coursedir" = None -> is_Some (document !! "self") ->
        why = MultipleValues "self").
Proof.
  intros Hy Hdoc Hk Hnone. unfold load_yaml, load_parsed.
  rewrite Hy, first_document_cons. cbn [items]. rewrite Hdoc.
  destruct (document !! "coursedir") as [cd |] eqn:Hcd.
  { exists (MultipleValues "coursedir"). unfold Course_init. rewrite Hcd.
    rewrite bool_decide_eq_true_2 by eauto.
    repeat split; solve [done | by intros [? ?] | by intros _ [? ?]]. }
  destruct (document !! "self") as [sf |] eqn:Hself.
  { exists (MultipleValues "self"). unfold Course_init. rewrite Hcd, Hself.
    rewrite bool_decide_eq_false_2 by (intros [? ?]; discriminate).
    rewrite bool_decide_eq_true_2 by eauto.
    repeat split; solve [done | by intros [? ?] | by intros _ [? ?]]. }
  rewrite (Course_init_missing _ document k Hk Hnone Hcd Hself).
  eexists. repeat split;
    solve [done | by intros [? ?] | by intros _ [? ?] | by apply list_elem_of_filter].
Qed.

Lemma load_yaml_missing_field_witness :
  exists why,
    load_yaml parsed_file partial_document "/courses/demo" = Raise (TypeError why)
    /\ why = MissingArguments ["lessons"; "author"; "version"].
Proof.
  destruct (load_yaml_missing_field parsed_file partial_document "/courses/demo"
              [(VStr "Course", VStr "Demo")] [] {["course" := VStr "Demo"]} "lessons")
    as (why & Hload & _ & _ & Hmissing & _).
  - reflexivity.
  - vm_compute. reflexivity.
  - unfold required_arguments. set_solver.
  - vm_compute. reflexivity.
  - exists why. split; [exact Hload |].
    destruct Hmissing as [-> _]; vm_compute; reflexivity.
Defined.

(** C10 fails as stated: the only field of this document is [CourseDir];
    the four mandatory fields are absent, and the error raised is the one
    for an argument given twice, not the one for missing arguments. *)
Lemma missing_field_reported_as_duplicate :
  (exists document,
     first_document relocated_document = Return document
     /\ document !! "course" = None /\ document !! "lessons" = None
     /\ document !! "author" = None /\ document !! "version" = None)
  /\ load_yaml parsed_file relocated_document "/courses/demo"
     = Raise (TypeError (MultipleValues "coursedir"))
  /\ (forall names,
        load_yaml parsed_file relocated_document "/courses/demo"
        <> Raise (TypeError (MissingArguments names))).
Proof.
  split; [| split].
  - eexists. split; [vm_compute; reflexivity |]. repeat split; vm_compute; reflexivity.
  - vm_compute. reflexivity.
  - intros names. vm_compute. discriminate.
Qed.

(** A key that is not a string stops the load before the constructor is
    called. *)
Example load_yaml_integer_key :
  load_yaml parsed_file (VList [VDict [(VInt 1, VStr "Demo")]]) "/courses/demo"
  = Raise (AttributeError "lower").
Proof. reflexivity. Qed.

(** ** The temporary directory of a packaged course *)

Section Lifecycle.
Context (env : Env).

(** The body of the [try] raises exactly when one of its four stages
    does. *)
Lemma run_lesson_raises (curcoursedir lessonname : string) (w : World)
    (e : exn) (w' : World) :
  run_lesson env curcoursedir lessonname w = (Raise e, w')
  <-> exists stage, fails_at env stage curcoursedir lessonname w e w'.
Proof.
  unfold run_lesson, open_and_load, bind, lift, print. split.
  - destruct (slugify env lessonname) as [slug | e0] eqn:Hslug.
    + destruct (open_r env _ w) as [[f | e1] w1] eqn:Hopen.
      * destruct (Lesson_load_yaml env f w1) as [[lesson | e2] w2] eqn:Hload.
        -- destruct (Lesson_execute env lesson (close env f w2))
             as [[[] | e3] w3] eqn:Hrun; [discriminate |].
           intros [= <- <-]. exists Executing. cbn [fails_at]. eauto 10.
        -- intros [= <- <-]. exists Parsing. cbn [fails_at]. eauto 10.
      * intros [= <- <-]. exists OpeningFile. cbn [fails_at]. eauto.
    + intros [= <- <-]. exists PathConstruction. cbn [fails_at]. eauto.
  - intros [[| | |] Hstage]; cbn [fails_at] in Hstage.
    + destruct Hstage as [-> ->]. reflexivity.
    + destruct Hstage as (slug & -> & ->). reflexivity.
    + destruct Hstage as (slug & f & w1 & w2 & -> & -> & -> & ->). reflexivity.
    + destruct Hstage as (slug & f & w1 & lesson & w2 & -> & -> & -> & ->).
      reflexivity.
Qed.

Lemma execute_lesson_resolved (self : Course) (identifier lessonname : string)
    (w : World) :
  resolve_lessonname (lessonnames self) identifier = Return lessonname ->
  execute_lesson env self identifier w =
    match extract env self w with
    | (Return (tempdir, curcoursedir), w1) =>
        try_except (run_lesson env curcoursedir lessonname)
          (cleanup_handler self tempdir) w1
    | (Raise e, w1) => (Raise e, w1)
    end.
Proof.
  intros Hres. unfold execute_lesson, bind, lift. rewrite Hres.
  destruct (extract env self w) as [[[tempdir cur] | e] w1]; reflexivity.
Qed.


Lemma extract_packaged (self : Course) (w : World) (tempdir : string)
    (w0 w1 : World) :
  packaged self = true ->
  mkdtemp w = (Return tempdir, w0) ->
  extractall env (coursedir self) tempdir w0 = (Return tt, w1) ->
  extract env self w
  = (Return (Some tempdir, path_join tempdir [pkgname self]), w1).
Proof.
  intros Hpk Hmk Hex. unfold extract, bind, ret. by rewrite Hpk, Hmk, Hex.
Qed.

Lemma rmtree_removes (path : string) (w : World) :
  path ∉ locked w -> path ∉ dirs (rmtree_ignore_errors path w).2.
Proof.
  intros Hfree. unfold rmtree_ignore_errors.
  rewrite bool_decide_eq_false_2 by done. cbn.
  rewrite list_elem_of_filter. intros [Hunder _].
  unfold is_under in Hunder. by rewrite String.eqb_refl in Hunder.
Qed.

Lemma rmtree_never_raises (path : string) (w : World) :
  (rmtree_ignore_errors path w).1 = Return tt.
Proof. unfold rmtree_ignore_errors. by case_bool_decide. Qed.

(** C8, as the code has it: for a packaged course, when a stage that
    follows the extraction (building the path of the lesson, opening the
    file, parsing it, running the lesson) fails with an exception [e] that
    is an [Exception], [execute_lesson] calls the removal of the temporary
    directory and then raises [e] itself; the removal never raises, so it
    cannot replace [e]; and the directory is gone from the disk unless its
    removal failed. *)
Theorem failure_after_extraction_cleans_up (self : Course)
    (identifier lessonname tempdir : string) (stage : lesson_stage)
    (w w0 w1 w2 : World) (e : exn) :
  packaged self = true ->
  resolve_lessonname (lessonnames self) identifier = Return lessonname ->
  mkdtemp w = (Return tempdir, w0) ->
  extractall env (coursedir self) tempdir w0 = (Return tt, w1) ->
  fails_at env stage (path_join tempdir [pkgname self]) lessonname w1 e w2 ->
  isinstance_Exception e = true ->
  execute_lesson env self identifier w
  = (Raise e, (rmtree_ignore_errors tempdir w2).2)
  /\ (rmtree_ignore_errors tempdir w2).1 = Return tt
  /\ (tempdir ∉ locked w2 -> tempdir ∉ dirs (rmtree_ignore_errors tempdir w2).2)
  /\ (tempdir ∈ locked w2 -> (rmtree_ignore_errors tempdir w2).2 = w2).
Proof.
  intros Hpk Hres Hmk Hex Hfail Hexc.
  rewrite (execute_lesson_resolved self identifier lessonname w Hres).
  rewrite (extract_packaged self w tempdir w0 w1 Hpk Hmk Hex).
  assert (run_lesson env (path_join tempdir [pkgname self]) lessonname w1
          = (Raise e, w2)) as Hrun.
  { apply run_lesson_raises. by exists stage. }
  unfold try_except, cleanup_handler. rewrite Hrun, Hexc, Hpk.
  unfold bind, raise.
  pose proof (rmtree_never_raises tempdir w2) as Hnever.
  destruct (rmtree_ignore_errors tempdir w2) as [r w3] eqn:Hrm.
  cbn in Hnever |- *. subst r. repeat split.
  - intros Hfree. pose proof (rmtree_removes tempdir w2 Hfree) as Hgone.
    by rewrite Hrm in Hgone.
  - intros Hlocked. unfold rmtree_ignore_errors in Hrm.
    rewrite bool_decide_eq_true_2 in Hrm by done. by injection Hrm.
Qed.

(** X7: an interrupt is not an [Exception]: it passes through the handler
    and the directory is not removed. *)
Lemma interrupt_skips_cleanup (self : Course)
    (identifier lessonname tempdir : string) (w w0 w1 w2 : World) (e : exn) :
  packaged self = true ->
  resolve_lessonname (lessonnames self) identifier = Return lessonname ->
  mkdtemp w = (Return tempdir, w0) ->
  extractall env (coursedir self) tempdir w0 = (Return tt, w1) ->
  run_lesson env (path_join tempdir [pkgname self]) lessonname w1 = (Raise e, w2) ->
  isinstance_Exception e = false ->
  execute_lesson env self identifier w = (Raise e, w2).
Proof.
  intros Hpk Hres Hmk Hex Hrun Hexc.
  rewrite (execute_lesson_resolved self identifier lessonname w Hres).
  rewrite (extract_packaged self w tempdir w0 w1 Hpk Hmk Hex).
  unfold try_except, cleanup_handler. by rewrite Hrun, Hexc.
Qed.

(** When every stage succeeds, the world [execute_lesson] leaves is the
    one its last [print] leaves: nothing is removed. *)
Lemma success_skips_cleanup (self : Course)
    (identifier lessonname tempdir : string) (w w0 w1 w2 : World) :
  packaged self = true ->
  resolve_lessonname (lessonnames self) identifier = Return lessonname ->
  mkdtemp w = (Return tempdir, w0) ->
  extractall env (coursedir self) tempdir w0 = (Return tt, w1) ->
  run_lesson env (path_join tempdir [pkgname self]) lessonname w1 = (Return tt, w2) ->
  execute_lesson env self identifier w = (Return tt, w2).
Proof.
  intros Hpk Hres Hmk Hex Hrun.
  rewrite (execute_lesson_resolved self identifier lessonname w Hres).
  rewrite (extract_packaged self w tempdir w0 w1 Hpk Hmk Hex).
  unfold try_except. by rewrite Hrun.
Qed.

(** When the archive cannot be extracted, the exception leaves
    [execute_lesson] from outside the [try]: nothing is removed. *)
Lemma extraction_failure_skips_cleanup (self : Course)
    (identifier lessonname tempdir : string) (w w0 w1 : World) (e : exn) :
  packaged self = true ->
  resolve_lessonname (lessonnames self) identifier = Return lessonname ->
  mkdtemp w = (Return tempdir, w0) ->
  extractall env (coursedir self) tempdir w0 = (Raise e, w1) ->
  execute_lesson env self identifier w = (Raise e, w1).
Proof.
  intros Hpk Hres Hmk Hex.
  rewrite (execute_lesson_resolved self identifier lessonname w Hres).
  unfold extract, bind. by rewrite Hpk, Hmk, Hex.
Qed.
End Lifecycle.

Lemma failure_after_extraction_cleans_up_witness :
  execute_lesson crashing_env demo_course "1" (demo_world [])
  = (Raise (OSError "lesson crashed"), mkWorld [] [] 1 [] [])
  /\ "/tmp/tmp0" ∉ dirs (mkWorld [] [] 1 [] []).
Proof.
  destruct (failure_after_extraction_cleans_up crashing_env demo_course
              "1" "Intro" "/tmp/tmp0" Executing
              (demo_world []) (mkWorld ["/tmp/tmp0"] [] 1 [] [])
              (mkWorld ["/tmp/tmp0"] [] 1 [] []) (mkWorld ["/tmp/tmp0"] [] 1 [] [])
              (OSError "lesson crashed"))
    as (Hexec & _ & Hgone & _).
  - reflexivity.
  - reflexivity.
  - reflexivity.
  - reflexivity.
  - cbn [fails_at].
    exists "intro", tt, (mkWorld ["/tmp/tmp0"] [] 1 [] []), tt,
      (mkWorld ["/tmp/tmp0"] [] 1 [] []).
    repeat split; reflexivity.
  - reflexivity.
  - split; [exact Hexec |]. apply Hgone. cbn. apply not_elem_of_nil.
Defined.

(** C8 fails as stated for a failure that is not an [Exception]: the
    lesson of a packaged course is interrupted while it runs, after the
    extraction; the interrupt leaves [execute_lesson] and the temporary
    directory, whose removal would not have failed, is still on the disk. *)
Lemma interrupt_after_extraction_leaves_tempdir :
  packaged demo_course = true
  /\ mkdtemp (demo_world []) = (Return "/tmp/tmp0", mkWorld ["/tmp/tmp0"] [] 1 [] [])
  /\ fails_at interrupted_env Executing
       (path_join "/tmp/tmp0" [pkgname demo_course]) "Intro"
       (mkWorld ["/tmp/tmp0"] [] 1 [] []) KeyboardInterrupt
       (mkWorld ["/tmp/tmp0"] [] 1 [] [])
  /\ execute_lesson interrupted_env demo_course "1" (demo_world [])
     = (Raise KeyboardInterrupt, mkWorld ["/tmp/tmp0"] [] 1 [] [])
  /\ "/tmp/tmp0" ∈ dirs (mkWorld ["/tmp/tmp0"] [] 1 [] [])
  /\ "/tmp/tmp0" ∉ locked (mkWorld ["/tmp/tmp0"] [] 1 [] []).
Proof.
  repeat split.
  - cbn [fails_at].
    exists "intro", tt, (mkWorld ["/tmp/tmp0"] [] 1 [] []), tt,
      (mkWorld ["/tmp/tmp0"] [] 1 [] []).
    repeat split; reflexivity.
  - apply list_elem_of_here.
  - apply not_elem_of_nil.
Qed.

(** C1: after a lesson attempt of a packaged course the temporary
    directory must be gone, whether the attempt succeeded or failed.  Here
    is what the code does on the first lesson of a packaged course, on an
    empty disk: [mkdtemp] makes [/tmp/tmp0]; when the lesson runs to its end
    the directory is still on the disk, and so it is when the archive
    cannot be extracted. *)
Theorem packaged_attempt_leaves_tempdir :
  mkdtemp (demo_world []) = (Return "/tmp/tmp0", mkWorld ["/tmp/tmp0"] [] 1 [] [])
  /\ execute_lesson (demo_env (ret tt) (ret tt)) demo_course "1" (demo_world [])
     = (Return tt,
        mkWorld ["/tmp/tmp0"] [] 1 [] [newline; "Lesson Intro complete!" +:+ newline])
  /\ execute_lesson (demo_env (raise (OSError "not a tar archive")) (ret tt))
       demo_course "1" (demo_world [])
     = (Raise (OSError "not a tar archive"), mkWorld ["/tmp/tmp0"] [] 1 [] [])
  /\ "/tmp/tmp0" ∈ dirs (mkWorld ["/tmp/tmp0"] [] 1 [] []).
Proof. repeat split; try reflexivity. apply list_elem_of_here. Qed.

(** ** The selection loop *)

Lemma write_all_nil (w : World) : write_all [] w = w.
Proof. destruct w. unfold write_all. cbn. by rewrite app_nil_r. Qed.

Lemma write_all_cons (c : string) (cs : list string) (w : World) :
  write_all (c :: cs) w = write_all cs (write c w).
Proof. unfold write_all, write. cbn. by rewrite <- app_assoc. Qed.

Lemma for_each_print {A : Type} (l : list A) (body : A -> M unit)
    (text : A -> string) (w : World) :
  (forall x w, body x w = print (text x) w) ->
  for_each l body w = (Return tt, write_all ((fun x => text x +:+ newline) <$> l) w).
Proof.
  intros Hbody. revert w. induction l as [| x l IH]; intros w; cbn [for_each fmap list_fmap].
  - by rewrite write_all_nil.
  - unfold bind. rewrite Hbody. unfold print at 1. rewrite IH.
    by rewrite write_all_cons.
Qed.

Lemma menu_prints (self : Course) (w : World) :
  menu self w = (Return tt, write_all (menu_text self) w).
Proof.
  unfold menu, menu_text.
  rewrite (for_each_print _ _
             (fun p => str_of_int (p.1 + 1) +:+ ": " +:+ p.2)).
  - f_equal. f_equal. apply list_fmap_ext. intros _ [index lesson] _.
    reflexivity.
  - by intros [index lesson] w'.
Qed.

Section SelectionLoop.
Context (env : Env).




(** The loop returns only from a turn that breaks. *)
Lemma execute_returns (fuel : nat) (self : Course) (w w' : World) :
  execute env fuel self w = Some (Return tt, w') ->
  exists w0, execute_iteration env self w0 = (Return Break, w').
Proof.
  revert w. induction fuel as [| fuel IH]; intros w; cbn [execute]; [discriminate |].
  destruct (execute_iteration env self w) as [[[|] | e] w1] eqn:Hiter.
  - apply IH.
  - intros [= <-]. by exists w.
  - discriminate.
Qed.

(** An exception that is neither of the two the loop handles leaves the
    loop as it is. *)
Lemma execute_propagates (fuel : nat) (self : Course) (w w1 : World)
    (identifier : option string) (e : exn) :
  select_and_run env self (write_all (menu_text self) w) = (identifier, Raise e, w1) ->
  e <> EOFError ->
  (forall msg, e <> NoSuchLessonException msg) ->
  execute env (S fuel) self w = Some (Raise e, w1).
Proof.
  intros Hrun Heof Hno. cbn [execute]. unfold execute_iteration, bind.
  rewrite menu_prints, Hrun.
  destruct identifier, e; try reflexivity; try congruence;
    by destruct (Hno msg).
Qed.


Lemma input_line (prompt : string) (w : World) (line : string)
    (rest : list string) :
  stdin w = line :: rest ->
  input prompt w = (Return line, set_stdin rest (write prompt w)).
Proof. intros Hin. unfold input. cbn [stdin write]. by rewrite Hin. Qed.





End SelectionLoop.



(** ** The builtins on sample inputs *)

Example int_of_str_samples :
  int_of_str "2" = Some 2
  /\ int_of_str " 12 " = Some 12
  /\ int_of_str "+5" = Some 5
  /\ int_of_str "-3" = Some (-3)
  /\ int_of_str "007" = Some 7
  /\ int_of_str "1_000" = Some 1000
  /\ int_of_str "1__0" = None
  /\ int_of_str "_1" = None
  /\ int_of_str "1_" = None
  /\ int_of_str "- 1" = None
  /\ int_of_str "" = None
  /\ int_of_str "+" = None
  /\ int_of_str "1.0" = None
  /\ int_of_str "Basics" = None.
Proof. repeat split; reflexivity. Qed.

Example str_of_int_samples :
  str_of_int 0 = "0" /\ str_of_int 42 = "42" /\ str_of_int (-7) = "-7".
Proof. repeat split; reflexivity. Qed.

Example strip_samples :
  strip " Nope " = "Nope" /\ strip "a b" = "a b" /\ strip "   " = "".
Proof. repeat split; reflexivity. Qed.

Example split_samples :
  split ";" "Intro;Basics;Advanced" = ["Intro"; "Basics"; "Advanced"]
  /\ split ";" "" = [""]
  /\ split ";" "a;;b;" = ["a"; ""; "b"; ""].
Proof. repeat split; reflexivity. Qed.

Example path_join_samples :
  path_join "/tmp/tmp0" ["demo"] = "/tmp/tmp0/demo"
  /\ path_join "/tmp/tmp0/demo" ["lessons"; "intro.yaml"]
     = "/tmp/tmp0/demo/lessons/intro.yaml"
  /\ path_join "/tmp/tmp0" ["/etc"] = "/etc".
Proof. repeat split; reflexivity. Qed.

(** Scenarios A and B of the specification. *)
Example scenario_resolution :
  resolve_lessonname demo_lessons "2" = Return "Basics"
  /\ resolve_lessonname demo_lessons "Advanced" = Return "Advanced"
  /\ resolve_lessonname demo_lessons "4"
     = Raise (NoSuchLessonException "Invalid lesson index").
Proof. repeat split; reflexivity. Qed.

(** The demonstration document loads into the demonstration object. *)
Example demo_document_loads :
  load_yaml parsed_file (demo_document []) "/courses/demo" = Return demo_object.
Proof. vm_compute. reflexivity. Qed.

(** * Further properties of the class *)

(** ** The resolver on every input *)

Lemma getitem_elem_of {A : Type} (l : list A) (i : Z) (x : A) :
  getitem l i = Some x -> x ∈ l.
Proof.
  unfold getitem. destruct (_ && _); [| discriminate].
  apply list_elem_of_lookup_2.
Qed.

(** X2: whatever the selector, the resolver either returns one of the
    lesson names of the course or raises NoSuchLessonException; the
    [IndexError] and the [ValueError] of its lookups never leave it. *)
Theorem resolve_outcome (l : list string) (s : string) :
  match resolve_lessonname l s with
  | Return lessonname => lessonname ∈ l
  | Raise e => exists msg, e = NoSuchLessonException msg
  end.
Proof.
  unfold resolve_lessonname. destruct (int_of_str s) as [n |].
  - destruct (getitem l (n - 1)) as [x |] eqn:Hget; [| by eexists].
    by apply getitem_elem_of in Hget.
  - destruct (index s l) as [i |] eqn:Hidx; [| by eexists].
    destruct (index_Some s l i Hidx) as [Hat _].
    rewrite getitem_nonneg by lia. rewrite Nat2Z.id, Hat.
    by apply list_elem_of_lookup_2 in Hat.
Qed.

(** X3: a course without lessons refuses every selector. *)
Theorem resolve_no_lessons (s : string) :
  exists msg, resolve_lessonname [] s = Raise (NoSuchLessonException msg).
Proof.
  unfold resolve_lessonname. destruct (int_of_str s) as [n |]; [| by eexists].
  rewrite getitem_out_of_range; [by eexists |].
  cbn [length]. lia.
Qed.

(** X4: a selector that [int] accepts as [n] resolves exactly when
    [-len < n <= len], and then to the lesson at position
    [(n - 1) mod len]: the indices from 1 to [len] count from the front,
    those from [1 - len] to 0 from the back. *)
Theorem resolve_integer_succeeds_iff (l : list string) (s : string) (n : Z) :
  int_of_str s = Some n ->
  ((exists lessonname, resolve_lessonname l s = Return lessonname)
   <-> - Z.of_nat (length l) < n <= Z.of_nat (length l))
  /\ (- Z.of_nat (length l) < n <= Z.of_nat (length l) ->
      exists lessonname,
        l !! Z.to_nat ((n - 1) `mod` Z.of_nat (length l)) = Some lessonname
        /\ resolve_lessonname l s = Return lessonname).
Proof.
  intros Hn. rewrite (resolve_lessonname_int l s n Hn). unfold resolve_index.
  assert (- Z.of_nat (length l) < n <= Z.of_nat (length l) ->
          exists x, l !! Z.to_nat ((n - 1) `mod` Z.of_nat (length l)) = Some x
                    /\ getitem l (n - 1) = Some x) as Hin.
  { intros Hrange.
    destruct (lookup_lt_is_Some_2 l (Z.to_nat ((n - 1) `mod` Z.of_nat (length l))))
      as [x Hx].
    { pose proof (Z.mod_pos_bound (n - 1) (Z.of_nat (length l))). lia. }
    exists x. split; [exact Hx |]. rewrite <- Hx.
    destruct (Z.lt_ge_cases (n - 1) 0) as [Hneg | Hpos].
    - rewrite getitem_negative by lia.
      destruct (Z.leb_spec 0 (n - 1 + Z.of_nat (length l))); [| lia].
      rewrite <- (Z_mod_plus_full (n - 1) 1 (Z.of_nat (length l))).
      rewrite Z.mod_small by lia. do 2 f_equal. lia.
    - rewrite getitem_nonneg by lia. by rewrite Z.mod_small by lia. }
  split; [split |].
  - intros [x Hx]. destruct (getitem l (n - 1)) eqn:Hget; [| discriminate].
    destruct (Z.le_gt_cases n (- Z.of_nat (length l))) as [Hlow | ?];
      [| destruct (Z.le_gt_cases n (Z.of_nat (length l))) as [? | Hhigh]; [lia |]].
    + rewrite getitem_out_of_range in Hget by lia. discriminate.
    + rewrite getitem_out_of_range in Hget by lia. discriminate.
  - intros Hrange. destruct (Hin Hrange) as (x & _ & ->). by exists x.
  - intros Hrange. destruct (Hin Hrange) as (x & Hx & ->). by exists x.
Qed.

Lemma resolve_integer_succeeds_iff_witness :
  ((exists lessonname, resolve_lessonname demo_lessons "-2" = Return lessonname)
   <-> - Z.of_nat (length demo_lessons) < -2 <= Z.of_nat (length demo_lessons))
  /\ (- Z.of_nat (length demo_lessons) < -2 <= Z.of_nat (length demo_lessons) ->
      exists lessonname,
        demo_lessons !! Z.to_nat ((-2 - 1) `mod` Z.of_nat (length demo_lessons))
        = Some lessonname
        /\ resolve_lessonname demo_lessons "-2" = Return lessonname).
Proof. apply (resolve_integer_succeeds_iff demo_lessons "-2" (-2)). reflexivity. Defined.

(** X1: [menu] prints one line a lesson, in the order of the course, each
    with its position counted from one; and the number printed in front of
    a lesson, typed as the selector, resolves to that lesson. *)
Theorem menu_numbers_resolve (self : Course) (w : World) :
  menu self w = (Return tt, write_all (menu_text self) w)
  /\ length (menu_text self) = length (lessonnames self)
  /\ (forall (i : nat) (lesson : string),
        lessonnames self !! i = Some lesson ->
        menu_text self !! i
        = Some ((str_of_int (Z.of_nat i + 1) +:+ ": " +:+ lesson) +:+ newline)
        /\ resolve_lessonname (lessonnames self) (str_of_int (Z.of_nat i + 1))
           = Return lesson).
Proof.
  split; [apply menu_prints |]. unfold menu_text, enumerate. split.
  - by rewrite length_fmap, length_imap.
  - intros i lesson Hi. split.
    + rewrite list_lookup_fmap, list_lookup_imap, Hi. reflexivity.
    + rewrite (resolve_lessonname_int _ _ _ (int_of_str_of_int _)).
      unfold resolve_index. rewrite getitem_nonneg by lia.
      replace (Z.to_nat (Z.of_nat i + 1 - 1)) with i by lia. by rewrite Hi.
Qed.

Lemma menu_numbers_resolve_witness :
  menu_text demo_course !! 1%nat
  = Some ((str_of_int (Z.of_nat 1 + 1) +:+ ": " +:+ "Basics") +:+ newline)
  /\ resolve_lessonname (lessonnames demo_course) (str_of_int (Z.of_nat 1 + 1))
     = Return "Basics".
Proof.
  apply (proj2 (proj2 (menu_numbers_resolve demo_course (demo_world [])))
           1%nat "Basics").
  reflexivity.
Defined.

(** ** Whitespace around the selector *)

Lemma lstrip_head (s : string) :
  match lstrip s with
  | EmptyString => True
  | String c _ => is_space c = false
  end.
Proof.
  induction s as [| c s IH]; cbn [lstrip]; [done |].
  destruct (is_space c) eqn:Hc; [exact IH | cbn; exact Hc].
Qed.

Lemma rstrip_head (c : ascii) (s : string) :
  is_space c = false -> exists r, rstrip (String c s) = String c r.
Proof.
  intros Hc. cbn [rstrip]. rewrite Hc. destruct (rstrip s); eauto.
Qed.

Lemma rstrip_idempotent (s : string) : rstrip (rstrip s) = rstrip s.
Proof.
  induction s as [| c s IH]; [reflexivity |]. cbn [rstrip].
  destruct (rstrip s) as [| c' r] eqn:Hr.
  - destruct (is_space c) eqn:Hc; [reflexivity |]. cbn [rstrip]. by rewrite Hc.
  - cbn [rstrip]. cbn [rstrip] in IH.
    destruct (rstrip r) as [| c'' r'] eqn:Hr'.
    + destruct (is_space c'); [discriminate |]. by rewrite IH.
    + by rewrite IH.
Qed.

Lemma strip_idempotent (s : string) : strip (strip s) = strip s.
Proof.
  unfold strip. pose proof (lstrip_head s) as Hhead.
  destruct (lstrip s) as [| c t]; [reflexivity |].
  destruct (rstrip_head c t Hhead) as [r Hr]. rewrite Hr.
  cbn [lstrip]. rewrite Hhead, <- Hr. apply rstrip_idempotent.
Qed.

(** ** Lessons that run, end, or are cut short *)


Section Attempts.
Context (env : Env).

(** X9: the loop reads the selector without the whitespace around it:
    stripping is idempotent, and two lines that are equal once stripped
    lead the turn to the same outcome and the same world. *)
Theorem selection_ignores_surrounding_whitespace (self : Course) :
  (forall line, strip (strip line) = strip line)
  /\ (forall (w : World) (line1 line2 : string) (rest : list string),
        strip line1 = strip line2 ->
        stdin w = line1 :: rest ->
        execute_iteration env self w
        = execute_iteration env self (set_stdin (line2 :: rest) w)).
Proof.
  split; [apply strip_idempotent |].
  intros w line1 line2 rest Hstrip Hin.
  unfold execute_iteration, bind. rewrite !menu_prints.
  unfold select_and_run, input. cbn [stdin write write_all set_stdin].
  rewrite Hin, Hstrip. reflexivity.
Qed.

(** X5: for a course that is a directory, [execute_lesson] is the
    resolver followed by the lesson run in [coursedir] itself: no directory
    is made or removed, and an exception of the run leaves as it came, with
    the world the run left. *)
Theorem raw_course_runs_in_place (self : Course) (identifier : string)
    (w : World) :
  packaged self = false ->
  execute_lesson env self identifier w
  = match resolve_lessonname (lessonnames self) identifier with
    | Return lessonname => run_lesson env (coursedir self) lessonname w
    | Raise e => (Raise e, w)
    end.
Proof.
  intros Hraw. unfold execute_lesson, bind, lift.
  destruct (resolve_lessonname (lessonnames self) identifier) as [name | e];
    [| reflexivity].
  unfold extract. rewrite Hraw. unfold ret, try_except, cleanup_handler.
  destruct (run_lesson env (coursedir self) name w) as [[[] | e] w'];
    [reflexivity |].
  rewrite Hraw. by destruct (isinstance_Exception e).
Qed.

(** X8: when [execute_lesson] returns, the selector resolved, the lesson
    engine ran a lesson to its end, and the last two things written are an
    empty line and "Lesson", the resolved name, "complete!". *)
Theorem lesson_success_report (self : Course) (identifier : string)
    (w w' : World) :
  execute_lesson env self identifier w = (Return tt, w') ->
  exists lessonname lesson w1 w2,
    resolve_lessonname (lessonnames self) identifier = Return lessonname
    /\ Lesson_execute env lesson w1 = (Return tt, w2)
    /\ w' = write (("Lesson " +:+ lessonname +:+ " complete!") +:+ newline)
              (write newline w2)
    /\ stdout w'
       = (stdout w2
          ++ [newline; ("Lesson " +:+ lessonname +:+ " complete!") +:+ newline])%list.
Proof.
  unfold execute_lesson, bind, lift.
  destruct (resolve_lessonname (lessonnames self) identifier) as [name | e];
    [| discriminate].
  destruct (extract env self w) as [[[tempdir cur] | e] w0]; [| discriminate].
  unfold try_except.
  destruct (run_lesson env cur name w0) as [[[] | e] w3] eqn:Hrun.
  - intros [= <-]. revert Hrun. unfold run_lesson, open_and_load, bind, lift, print.
    destruct (slugify env name) as [slug | e]; [| discriminate].
    destruct (open_r env _ w0) as [[f | e] w1]; [| discriminate].
    destruct (Lesson_load_yaml env f w1) as [[lesson | e] w2]; [| discriminate].
    destruct (Lesson_execute env lesson (close env f w2)) as [[[] | e] w4] eqn:Hexec;
      [| discriminate].
    intros [= <-]. exists name, lesson, (close env f w2), w4.
    repeat split; try done. cbn. by rewrite <- app_assoc.
  - unfold cleanup_handler. destruct (isinstance_Exception e); [| discriminate].
    unfold bind, raise.
    destruct (if packaged self then _ else _) as [[[] | e'] w4]; discriminate.
Qed.

(** X6: when the input ends in the middle of a lesson of a packaged
    course, the handler of [execute_lesson] removes the temporary directory
    and the loop, which receives the same [EOFError], says goodbye and
    returns. *)
Theorem eof_in_lesson_ends_loop (self : Course) (w : World)
    (line lessonname tempdir : string) (rest : list string)
    (w1 w2 w3 : World) (fuel : nat) :
  packaged self = true ->
  stdin w = line :: rest ->
  resolve_lessonname (lessonnames self) (strip line) = Return lessonname ->
  mkdtemp (set_stdin rest (write "Selection: " (write_all (menu_text self) w)))
  = (Return tempdir, w1) ->
  extractall env (coursedir self) tempdir w1 = (Return tt, w2) ->
  run_lesson env (path_join tempdir [pkgname self]) lessonname w2
  = (Raise EOFError, w3) ->
  execute env (S fuel) self w
  = Some (Return tt, farewell (rmtree_ignore_errors tempdir w3).2)
  /\ (tempdir ∉ locked w3 ->
      tempdir ∉ dirs (farewell (rmtree_ignore_errors tempdir w3).2)).
Proof.
  intros Hpk Hin Hres Hmk Hex Hrun. split.
  - cbn [execute]. unfold execute_iteration, bind. rewrite menu_prints.
    unfold select_and_run.
    rewrite (input_line "Selection: " (write_all (menu_text self) w) line rest Hin).
    rewrite (execute_lesson_resolved env self _ lessonname _ Hres).
    rewrite (extract_packaged env self _ tempdir w1 w2 Hpk Hmk Hex).
    unfold try_except, cleanup_handler. rewrite Hrun, Hpk. cbn [isinstance_Exception].
    unfold bind, raise.
    pose proof (rmtree_never_raises tempdir w3) as Hnever.
    destruct (rmtree_ignore_errors tempdir w3) as [r w4]. cbn in Hnever. subst r.
    reflexivity.
  - intros Hfree. pose proof (rmtree_removes tempdir w3 Hfree) as Hgone.
    by destruct (rmtree_ignore_errors tempdir w3).
Qed.
End Attempts.

Lemma raw_course_runs_in_place_witness :
  execute_lesson (demo_env (ret tt) (ret tt)) raw_course "2" (demo_world [])
  = (Return tt, mkWorld [] [] 0 [] [newline; "Lesson Basics complete!" +:+ newline]).
Proof.
  rewrite (raw_course_runs_in_place (demo_env (ret tt) (ret tt)) raw_course "2"
             (demo_world [])); reflexivity.
Defined.

Lemma lesson_success_report_witness :
  exists lessonname lesson w1 w2,
    resolve_lessonname (lessonnames raw_course) "2" = Return lessonname
    /\ Lesson_execute (demo_env (ret tt) (ret tt)) lesson w1 = (Return tt, w2)
    /\ mkWorld [] [] 0 [] [newline; "Lesson Basics complete!" +:+ newline]
       = write (("Lesson " +:+ lessonname +:+ " complete!") +:+ newline)
           (write newline w2)
    /\ stdout (mkWorld [] [] 0 [] [newline; "Lesson Basics complete!" +:+ newline])
       = (stdout w2
          ++ [newline; ("Lesson " +:+ lessonname +:+ " complete!") +:+ newline])%list.
Proof.
  apply (lesson_success_report (demo_env (ret tt) (ret tt)) raw_course "2"
           (demo_world [])).
  reflexivity.
Defined.

Lemma selection_ignores_surrounding_whitespace_witness :
  execute_iteration (demo_env (ret tt) (ret tt)) raw_course (demo_world [" 2 "])
  = execute_iteration (demo_env (ret tt) (ret tt)) raw_course
      (set_stdin ["2"] (demo_world [" 2 "])).
Proof.
  apply (proj2 (selection_ignores_surrounding_whitespace
                  (demo_env (ret tt) (ret tt)) raw_course)
           (demo_world [" 2 "]) " 2 " "2" []); reflexivity.
Defined.

Lemma eof_in_lesson_ends_loop_witness :
  execute eof_env 1 demo_course (demo_world ["Intro"])
  = Some (Return tt,
          mkWorld [] [] 1 []
            (menu_text demo_course ++ ["Selection: "; newline; "Bye!" +:+ newline])).
Proof.
  apply (proj1 (eof_in_lesson_ends_loop eof_env demo_course (demo_world ["Intro"])
                  "Intro" "Intro" "/tmp/tmp0" []
                  (mkWorld ["/tmp/tmp0"] [] 1 [] (menu_text demo_course ++ ["Selection: "]))
                  (mkWorld ["/tmp/tmp0"] [] 1 [] (menu_text demo_course ++ ["Selection: "]))
                  (mkWorld ["/tmp/tmp0"] [] 1 [] (menu_text demo_course ++ ["Selection: "]))
                  0%nat eq_refl eq_refl eq_refl eq_refl eq_refl eq_refl)).
Defined.

Lemma interrupt_skips_cleanup_witness :
  execute_lesson interrupted_env demo_course "1" (demo_world [])
  = (Raise KeyboardInterrupt, mkWorld ["/tmp/tmp0"] [] 1 [] []).
Proof.
  apply (interrupt_skips_cleanup interrupted_env demo_course "1" "Intro" "/tmp/tmp0"
           (demo_world []) (mkWorld ["/tmp/tmp0"] [] 1 [] [])
           (mkWorld ["/tmp/tmp0"] [] 1 [] []) (mkWorld ["/tmp/tmp0"] [] 1 [] [])
           KeyboardInterrupt); reflexivity.
Defined.

(** ** The loader on every document *)

Lemma lower_keys_Raise (acc : gmap string value) (kvs : list (value * value))
    (e : exn) :
  lower_keys acc kvs = Raise e -> e = AttributeError "lower".
Proof.
  revert acc. induction kvs as [| [k v] kvs IH]; intros acc; cbn [lower_keys];
    [discriminate |].
  destruct k; try (by intros [= <-]). apply IH.
Qed.

Lemma Course_init_Raise (coursedir : value) (document : gmap string value)
    (e : exn) :
  Course_init coursedir document = Raise e ->
  (exists why, e = TypeError why) \/ e = AttributeError "split".
Proof.
  unfold Course_init, Course_body.
  repeat case_bool_decide; try (intros [= <-]; eauto; fail).
  repeat case_match; intros [= <-]; eauto.
Qed.

Lemma Course_init_accepted (coursedir : value) (document : gmap string value) :
  (exists obj, Course_init coursedir document = Return obj)
  <-> exists s, accepted document s.
Proof.
  unfold accepted. split.
  - intros [obj Hobj].
    destruct (Course_init_Return _ _ _ Hobj) as (c & l & a & v & Hc & Hl & Ha & Hv & Hbody).
    unfold Course_init in Hobj. repeat case_bool_decide; try discriminate.
    unfold Course_body in Hbody. destruct l; try discriminate.
    eexists. rewrite Hc, Hl, Ha, Hv.
    repeat split; eauto; by apply eq_None_not_Some.
  - intros (s & Hcd & Hself & [c Hc] & Hl & [a Ha] & [v Hv]).
    unfold Course_init, Course_body. rewrite Hcd, Hself, Hc, Hl, Ha, Hv.
    rewrite !bool_decide_eq_false_2 by (intros [? ?]; discriminate). eauto.
Qed.

(** X10: the load of a parsed document succeeds exactly when its first
    element can be read (the document has a first element, it is a mapping,
    its keys are strings) and, with the keys in lower case, has the fields
    [course], [lessons], [author] and [version], [lessons] being a string,
    and no field [coursedir] or [self]. *)
Theorem load_parsed_succeeds_iff (y : value) (coursedir : string) :
  (exists obj, load_parsed y coursedir = Return obj)
  <-> exists document s, first_document y = Return document /\ accepted document s.
Proof.
  unfold load_parsed. split.
  - intros [obj Hobj]. destruct (first_document y) as [document | e]; [| discriminate].
    destruct (proj1 (Course_init_accepted (VStr coursedir) document)) as [s Hs];
      eauto.
  - intros (document & s & -> & Hacc).
    apply (Course_init_accepted (VStr coursedir) document). eauto.
Qed.

Lemma build_never_no_course (first : value) (coursedir : string) :
  match items first with
  | Raise e => Raise e
  | Return kvs =>
      match lower_keys ∅ kvs with
      | Raise e => Raise e
      | Return document => Course_init (VStr coursedir) document
      end
  end <> Raise NoCoursePresentException.
Proof.
  destruct first; cbn [items]; try discriminate.
  destruct (lower_keys ∅ items0) as [document | e] eqn:Hlow.
  - intros Hinit. apply Course_init_Raise in Hinit as [[why Hwhy] | Hsplit];
      discriminate.
  - apply lower_keys_Raise in Hlow as ->. discriminate.
Qed.

(** X11: the loader raises NoCoursePresentException exactly on a document
    of length zero: the empty list, and also the empty string and the empty
    mapping; no later step raises it. *)
Theorem no_course_present_iff (y : value) (coursedir : string) :
  load_parsed y coursedir = Raise NoCoursePresentException
  <-> y = VList [] \/ y = VStr EmptyString \/ y = VDict [].
Proof.
  split.
  - destruct y as [| b | n | s | l | kvs]; try discriminate.
    + destruct s as [| c s]; [auto |].
      unfold load_parsed, first_document. cbn [len].
      destruct (Z.ltb_spec (Z.of_nat (String.length (String c s))) 1) as [Hlt | _];
        [cbn [String.length] in Hlt; lia | discriminate].
    + destruct l as [| first rest]; [auto |].
      unfold load_parsed. rewrite first_document_cons. intros Hbuild.
      destruct (build_never_no_course first coursedir).
      by destruct (items first) as [kvs |].
    + destruct kvs as [| kv kvs]; [auto |].
      unfold load_parsed, first_document. cbn [len].
      destruct (Z.ltb_spec (Z.of_nat (length (kv :: kvs))) 1) as [Hlt | _];
        [cbn [length] in Hlt; lia |].
      cbn [getitem0]. destruct (List.find _ _) as [found |]; [| discriminate].
      intros Hbuild. destruct (build_never_no_course found.2 coursedir).
      by destruct (items found.2) as [kvs' |].
  - intros [-> | [-> | ->]]; reflexivity.
Qed.

(** The object of a successful load, from the document it was built of. *)
Lemma loaded_object (y : value) (coursedir : string)
    (document obj : gmap string value) :
  first_document y = Return document ->
  load_parsed y coursedir = Return obj ->
  exists c s a v,
    document !! "course" = Some c /\ document !! "lessons" = Some (VStr s)
    /\ document !! "author" = Some a /\ document !! "version" = Some v
    /\ document !! "coursedir" = None
    /\ obj = delete "version" (delete "author" (delete "lessons"
               (delete "course" document)))
             ∪ <["coursedir" := VStr coursedir]> (<["version" := v]> (
               <["description" := VStr EmptyString]> (<["author" := a]> (
               <["lessonnames" := VList (VStr <$> split ";" s)]> (
               <["course" := c]> ∅))))).
Proof.
  intros Hdoc. unfold load_parsed. rewrite Hdoc. intros Hinit.
  destruct (Course_init_Return _ _ _ Hinit)
    as (c & l & a & v & Hc & Hl & Ha & Hv & Hbody).
  unfold Course_init in Hinit. case_bool_decide as Hcd; [discriminate |].
  unfold Course_body in Hbody. destruct l as [| | | s | |]; try discriminate.
  injection Hbody as <-. exists c, s, a, v.
  repeat split; try done. by apply eq_None_not_Some.
Qed.

(** X12: the attributes of a loaded course.  [coursedir] is the directory
    given to the loader; [course], [author] and [version] are the fields of
    the document; [lessons] is not kept; [description] is the field of that
    name, or the empty string without one; [lessonnames] is the field of
    that name, or the [lessons] split on ";" without one; every other field
    of the document is kept as it is. *)
Theorem loaded_attributes (y : value) (coursedir : string)
    (document obj : gmap string value) :
  first_document y = Return document ->
  load_parsed y coursedir = Return obj ->
  obj !! "coursedir" = Some (VStr coursedir)
  /\ obj !! "course" = document !! "course"
  /\ obj !! "author" = document !! "author"
  /\ obj !! "version" = document !! "version"
  /\ obj !! "lessons" = None
  /\ obj !! "description"
     = Some (default (VStr EmptyString) (document !! "description"))
  /\ (exists s, document !! "lessons" = Some (VStr s)
        /\ obj !! "lessonnames"
           = Some (default (VList (VStr <$> split ";" s))
                     (document !! "lessonnames")))
  /\ (forall k,
        k ∉ ["coursedir"; "course"; "author"; "version"; "lessons";
             "description"; "lessonnames"] ->
        obj !! k = document !! k).
Proof.
  intros Hdoc Hload.
  destruct (loaded_object y coursedir document obj Hdoc Hload)
    as (c & s & a & v & Hc & Hl & Ha & Hv & Hcd & ->).
  repeat split.
  - rewrite lookup_union_r by (by rewrite !lookup_delete_ne, Hcd).
    by simplify_map_eq.
  - rewrite lookup_union_r by (by simplify_map_eq). by simplify_map_eq.
  - rewrite lookup_union_r by (by simplify_map_eq). by simplify_map_eq.
  - rewrite lookup_union_r by (by simplify_map_eq). by simplify_map_eq.
  - rewrite lookup_union_r by (by simplify_map_eq). by simplify_map_eq.
  - rewrite lookup_union, !lookup_delete_ne by done.
    destruct (document !! "description"); by simplify_map_eq.
  - exists s. split; [done |].
    rewrite lookup_union, !lookup_delete_ne by done.
    destruct (document !! "lessonnames"); by simplify_map_eq.
  - intros k Hk. rewrite !not_elem_of_cons in Hk.
    destruct Hk as (? & ? & ? & ? & ? & ? & ? & _).
    rewrite lookup_union, !lookup_delete_ne by done.
    rewrite !lookup_insert_ne, lookup_empty by done.
    by destruct (document !! k).
Qed.

Lemma loaded_attributes_witness :
  demo_object !! "coursedir" = Some (VStr "/courses/demo")
  /\ demo_object !! "lessons" = None
  /\ demo_object !! "description"
     = Some (default (VStr EmptyString) (demo_fields !! "description")).
Proof.
  destruct (loaded_attributes (demo_document []) "/courses/demo"
              demo_fields demo_object)
    as (Hcd & _ & _ & _ & Hl & Hd & _).
  - vm_compute. reflexivity.
  - vm_compute. reflexivity.
  - by repeat split.
Defined.

Lemma join_cons (sep : ascii) (x y : string) (l : list string) :
  join sep (x :: y :: l) = x +:+ String sep (join sep (y :: l)).
Proof. reflexivity. Qed.

Lemma join_split (sep : ascii) (s : string) : join sep (split sep s) = s.
Proof.
  induction s as [| c s IH]; [reflexivity |]. cbn [split].
  pose proof (split_nonempty sep s) as Hne.
  destruct (split sep s) as [| h t] eqn:Hs; [cbn in Hne; lia |].
  destruct (Ascii.eqb_spec c sep) as [-> | Hne'].
  - rewrite join_cons, IH. reflexivity.
  - destruct t as [| h' t].
    + cbn [join] in IH |- *. by rewrite IH.
    + rewrite join_cons in IH |- *.
      transitivity (String c (h +:+ String sep (join sep (h' :: t))));
        [reflexivity | by rewrite IH].
Qed.

Lemma split_pieces (sep : ascii) (s : string) :
  Forall (fun piece => occurs sep piece = 0%nat) (split sep s).
Proof.
  induction s as [| c s IH]; cbn [split]; [by repeat constructor |].
  destruct (Ascii.eqb c sep) eqn:Hc; [by constructor |].
  destruct (split sep s) as [| h t]; [repeat constructor; cbn; by rewrite Hc |].
  inversion IH; subst. constructor; [| done]. cbn [occurs]. rewrite Hc. lia.
Qed.

Lemma length_split (sep : ascii) (s : string) :
  length (split sep s) = S (occurs sep s).
Proof.
  induction s as [| c s IH]; [reflexivity |]. cbn [split occurs].
  destruct (Ascii.eqb c sep); cbn [length]; [by rewrite IH |].
  destruct (split sep s); cbn [length] in *; lia.
Qed.

(** X13: without a field [lessonnames] in the document, the lesson names
    of a loaded course are strings that hold no ";", one more than there
    are ";" in the field [lessons], and joined with ";" they give that
    field back. *)
Theorem lessons_field_round_trip (y : value) (coursedir : string)
    (document obj : gmap string value) :
  first_document y = Return document ->
  document !! "lessonnames" = None ->
  load_parsed y coursedir = Return obj ->
  exists s names,
    document !! "lessons" = Some (VStr s)
    /\ lessonnames_of obj = Some (VList (VStr <$> names))
    /\ join ";" names = s
    /\ Forall (fun name => occurs ";" name = 0%nat) names
    /\ length names = S (occurs ";" s).
Proof.
  intros Hdoc Hfree Hload.
  destruct (loaded_object y coursedir document obj Hdoc Hload)
    as (c & s & a & v & Hc & Hl & Ha & Hv & Hcd & ->).
  exists s, (split ";" s). repeat split; try done.
  - unfold lessonnames_of. rewrite lookup_union_r by (by rewrite !lookup_delete_ne).
    by simplify_map_eq.
  - apply join_split.
  - apply split_pieces.
  - apply length_split.
Qed.

Lemma lessons_field_round_trip_witness :
  exists s names,
    demo_fields !! "lessons" = Some (VStr s)
    /\ lessonnames_of demo_object = Some (VList (VStr <$> names))
    /\ join ";" names = s
    /\ Forall (fun name => occurs ";" name = 0%nat) names
    /\ length names = S (occurs ";" s).
Proof.
  apply (lessons_field_round_trip (demo_document []) "/courses/demo"
           demo_fields demo_object).
  - vm_compute. reflexivity.
  - vm_compute. reflexivity.
  - vm_compute. reflexivity.
Defined.

(** C6: loading a course whose parsed document is a list of zero elements
    fails with NoCoursePresent, and no course object is produced; when the
    list has at least one element the load never fails so, and the course
    is built from the first element alone: whatever follows it, the load
    does what it does on the first element by itself; a first element that
    is a mapping with the four fields ([lessons] a string, no [coursedir]
    or [self]) yields the course object made of its fields, and a course
    object is returned from such a first element only. *)
Theorem load_yaml_empty_or_first {File : Type} (safe_load : File -> result value)
    (file : File) (coursedir : string) :
  (safe_load file = Return (VList []) ->
     load_yaml safe_load file coursedir = Raise NoCoursePresentException
     /\ forall obj, load_yaml safe_load file coursedir <> Return obj)
  /\ (forall first rest,
        safe_load file = Return (VList (first :: rest)) ->
        load_yaml safe_load file coursedir = load_parsed (VList [first]) coursedir
        /\ load_yaml safe_load file coursedir <> Raise NoCoursePresentException
        /\ (forall kvs document c s a v,
              first = VDict kvs ->
              lower_keys ∅ kvs = Return document ->
              document !! "course" = Some c ->
              document !! "lessons" = Some (VStr s) ->
              document !! "author" = Some a ->
              document !! "version" = Some v ->
              document !! "coursedir" = None ->
              document !! "self" = None ->
              load_yaml safe_load file coursedir
              = Return (delete "version" (delete "author" (delete "lessons"
                          (delete "course" document)))
                        ∪ <["coursedir" := VStr coursedir]> (<["version" := v]> (
                          <["description" := VStr EmptyString]> (<["author" := a]> (
                          <["lessonnames" := VList (VStr <$> split ";" s)]> (
                          <["course" := c]> ∅)))))))
        /\ (forall obj,
              load_yaml safe_load file coursedir = Return obj ->
              exists kvs document c s a v,
                first = VDict kvs
                /\ lower_keys ∅ kvs = Return document
                /\ document !! "course" = Some c
                /\ document !! "lessons" = Some (VStr s)
                /\ document !! "author" = Some a
                /\ document !! "version" = Some v
                /\ obj !! "course" = Some c
                /\ obj !! "author" = Some a
                /\ obj !! "version" = Some v
                /\ obj !! "coursedir" = Some (VStr coursedir))).
Proof.
  unfold load_yaml. split.
  - intros ->. split; [reflexivity | discriminate].
  - intros first rest ->. split; [| split; [| split]].
    + unfold load_parsed. by rewrite !first_document_cons.
    + unfold load_parsed. rewrite first_document_cons.
      destruct (items first) as [kvs |] eqn:Hitems;
        [| by destruct first; simplify_eq/=].
      destruct (lower_keys ∅ kvs) as [document | e] eqn:Hlow.
      * intros Hinit. apply Course_init_Raise in Hinit as [[why Hwhy] | Hsplit];
          discriminate.
      * apply lower_keys_Raise in Hlow as ->. discriminate.
    + intros kvs document c s a v -> Hlow Hc Hl Ha Hv Hcd Hself.
      unfold load_parsed. rewrite first_document_cons. cbn [items]. rewrite Hlow.
      unfold Course_init, Course_body. rewrite Hcd, Hself, Hc, Hl, Ha, Hv.
      by rewrite !bool_decide_eq_false_2 by (intros [? ?]; discriminate).
    + intros obj Hobj.
      destruct first as [| | | | | kvs]; try (unfold load_parsed in Hobj;
        rewrite first_document_cons in Hobj; discriminate).
      assert (exists document,
                first_document (VList (VDict kvs :: rest)) = Return document
                /\ lower_keys ∅ kvs = Return document) as (document & Hdoc & Hlow).
      { unfold load_parsed in Hobj. rewrite first_document_cons in *.
        cbn [items] in *. destruct (lower_keys ∅ kvs) as [document |];
          [by exists document | discriminate]. }
      destruct (loaded_object _ coursedir document obj Hdoc Hobj)
        as (c & s & a & v & Hc & Hl & Ha & Hv & Hcd & ->).
      exists kvs, document, c, s, a, v. repeat split; try done.
      * rewrite lookup_union_r by (by simplify_map_eq). by simplify_map_eq.
      * rewrite lookup_union_r by (by simplify_map_eq). by simplify_map_eq.
      * rewrite lookup_union_r by (by simplify_map_eq). by simplify_map_eq.
      * rewrite lookup_union_r by (by rewrite !lookup_delete_ne, Hcd).
        by simplify_map_eq.
Qed.

Lemma load_yaml_empty_or_first_witness :
  (load_yaml parsed_file (VList []) "/courses/demo" = Raise NoCoursePresentException
   /\ forall obj, load_yaml parsed_file (VList []) "/courses/demo" <> Return obj)
  /\ load_yaml parsed_file
       (VList [VDict [(VStr "Course", VStr "Demo");
                      (VStr "Lessons", VStr "Intro;Basics;Advanced");
                      (VStr "Author", VStr "A. Teacher");
                      (VStr "Version", VInt 1)];
               VInt 7; VDict [(VStr "Course", VStr "Other")]])
       "/courses/demo"
     = Return demo_object.
Proof.
  split.
  - apply (proj1 (load_yaml_empty_or_first parsed_file (VList []) "/courses/demo")).
    reflexivity.
  - destruct (proj2 (load_yaml_empty_or_first parsed_file
                       (VList [VDict [(VStr "Course", VStr "Demo");
                                      (VStr "Lessons", VStr "Intro;Basics;Advanced");
                                      (VStr "Author", VStr "A. Teacher");
                                      (VStr "Version", VInt 1)];
                               VInt 7; VDict [(VStr "Course", VStr "Other")]])
                       "/courses/demo")
                _ _ eq_refl) as (_ & _ & Hbuilt & _).
    rewrite (Hbuilt _ demo_fields (VStr "Demo") "Intro;Basics;Advanced"
               (VStr "A. Teacher") (VInt 1) eq_refl);
      vm_compute; reflexivity.
Defined.

Lemma lower_char_idempotent (c : ascii) : lower_char (lower_char c) = lower_char c.
Proof. destruct c as [[] [] [] [] [] [] [] []]; reflexivity. Qed.

Lemma lower_idempotent (s : string) : lower (lower s) = lower s.
Proof.
  induction s as [| c s IH]; [reflexivity |]. cbn [lower].
  by rewrite lower_char_idempotent, IH.
Qed.

Lemma lower_keys_lower_key (acc : gmap string value) (kvs : list (value * value)) :
  lower_keys acc (lower_key <$> kvs) = lower_keys acc kvs.
Proof.
  revert acc. induction kvs as [| [k v] kvs IH]; intros acc; [reflexivity |].
  cbn [fmap list_fmap]. destruct k; cbn [lower_key lower_keys]; try reflexivity.
  rewrite lower_idempotent. apply IH.
Qed.

(** X14: the names of the fields are read without regard to the case of
    their letters: two documents whose first elements have the same pairs
    once the keys are in lower case load alike, to the same object or the
    same exception. *)
Theorem field_names_ignore_case (kvs1 kvs2 : list (value * value))
    (rest1 rest2 : list value) (coursedir : string) :
  lower_key <$> kvs1 = lower_key <$> kvs2 ->
  load_parsed (VList (VDict kvs1 :: rest1)) coursedir
  = load_parsed (VList (VDict kvs2 :: rest2)) coursedir.
Proof.
  intros Hsame. unfold load_parsed. rewrite !first_document_cons. cbn [items].
  by rewrite <- (lower_keys_lower_key ∅ kvs1), Hsame, lower_keys_lower_key.
Qed.

Lemma field_names_ignore_case_witness :
  load_parsed
    (VList [VDict [(VStr "COURSE", VStr "Demo"); (VStr "lessons", VStr "Intro");
                   (VStr "Author", VStr "A. Teacher"); (VStr "vErSiOn", VInt 1)]])
    "/courses/demo"
  = load_parsed
      (VList [VDict [(VStr "course", VStr "Demo"); (VStr "Lessons", VStr "Intro");
                     (VStr "AUTHOR", VStr "A. Teacher"); (VStr "version", VInt 1)];
              VNone])
      "/courses/demo".
Proof. apply field_names_ignore_case. reflexivity. Defined.

Lemma lower_keys_strings (acc : gmap string value) (fields : list (string * value)) :
  lower_keys acc ((fun kv => (VStr kv.1, kv.2)) <$> fields)
  = Return (list_to_map (reverse ((fun kv => (lower kv.1, kv.2)) <$> fields)) ∪ acc).
Proof.
  revert acc. induction fields as [| [k v] fields IH]; intros acc.
  - cbn. by rewrite (left_id_L ∅ (∪)).
  - cbn [fmap list_fmap lower_keys fst snd]. rewrite IH. f_equal.
    rewrite reverse_cons, list_to_map_app. cbn [list_to_map foldr uncurry fst snd].
    rewrite <- (assoc_L (∪)). f_equal.
    by rewrite insert_empty, <- insert_union_singleton_l.
Qed.

(** X15: of a mapping whose keys are strings, every field is kept under
    its name in lower case, and of the fields whose names agree in lower
    case the last one of the document stands. *)
Theorem lower_keys_last_wins (fields : list (string * value)) :
  lower_keys ∅ ((fun kv => (VStr kv.1, kv.2)) <$> fields)
  = Return (list_to_map (reverse ((fun kv => (lower kv.1, kv.2)) <$> fields)))
  /\ (forall (before after : list (string * value)) (k : string) (v : value),
        fields = (before ++ (k, v) :: after)%list ->
        Forall (fun kv => lower kv.1 <> lower k) after ->
        exists document,
          lower_keys ∅ ((fun kv => (VStr kv.1, kv.2)) <$> fields) = Return document
          /\ document !! lower k = Some v).
Proof.
  assert (lower_keys ∅ ((fun kv => (VStr kv.1, kv.2)) <$> fields)
          = Return (list_to_map (reverse ((fun kv => (lower kv.1, kv.2)) <$> fields))))
    as Heq.
  { rewrite lower_keys_strings. by rewrite (right_id_L ∅ (∪)). }
  split; [exact Heq |].
  intros before after k v -> Hlast. eexists. split; [exact Heq |].
  rewrite fmap_app, fmap_cons, reverse_app, reverse_cons, <- app_assoc.
  cbn [fst snd]. rewrite list_to_map_app.
  rewrite lookup_union_r.
  - cbn [app list_to_map foldr uncurry fst snd]. apply lookup_insert_eq.
  - apply not_elem_of_list_to_map_1.
    rewrite fmap_reverse, elem_of_reverse, <- list_fmap_compose, list_elem_of_fmap.
    intros ([k' v'] & Hk & Hin). cbn in Hk.
    rewrite Forall_forall in Hlast. by apply (Hlast _ Hin).
Qed.

Lemma lower_keys_last_wins_witness :
  exists document,
    lower_keys ∅ [(VStr "Course", VStr "Old"); (VStr "COURSE", VStr "New");
                  (VStr "Author", VStr "A. Teacher")] = Return document
    /\ document !! lower "COURSE" = Some (VStr "New").
Proof.
  apply (proj2 (lower_keys_last_wins
                  [("Course", VStr "Old"); ("COURSE", VStr "New");
                   ("Author", VStr "A. Teacher")])
           [("Course", VStr "Old")] [("Author", VStr "A. Teacher")] "COURSE"
           (VStr "New")).
  - reflexivity.
  - repeat constructor. cbn. discriminate.
Defined.

(** ** Strings put together and taken apart *)

Lemma append_cons (c : ascii) (a b : string) :
  String c a +:+ b = String c (a +:+ b).
Proof. reflexivity. Qed.

Lemma append_nil_r (s : string) : s +:+ EmptyString = s.
Proof.
  induction s as [| c s IH]; [reflexivity |]. by rewrite append_cons, IH.
Qed.

Lemma append_assoc (a b c : string) : (a +:+ b) +:+ c = a +:+ (b +:+ c).
Proof.
  induction a as [| x a IH]; [reflexivity |]. by rewrite !append_cons, IH.
Qed.

Lemma occurs_append (c : ascii) (a b : string) :
  occurs c (a +:+ b) = (occurs c a + occurs c b)%nat.
Proof.
  induction a as [| x a IH]; [reflexivity |].
  rewrite append_cons. cbn [occurs]. rewrite IH. lia.
Qed.

Lemma endswith_sep_append (a b : string) :
  endswith_sep (a +:+ b)
  = match b with EmptyString => endswith_sep a | String _ _ => endswith_sep b end.
Proof.
  destruct b as [| y b]; [by rewrite append_nil_r |].
  induction a as [| x a IH]; [reflexivity |].
  rewrite append_cons. destruct a as [| x' a]; [reflexivity |].
  rewrite append_cons in IH |- *. exact IH.
Qed.

Lemma endswith_sep_occurs (s : string) :
  occurs "/" s = 0%nat -> endswith_sep s = false.
Proof.
  induction s as [| c s IH]; [reflexivity |]. cbn [occurs].
  destruct (Ascii.eqb c "/") eqn:Hc; [lia |]. intros Hs.
  destruct s as [| c' s]; [exact Hc | by apply IH].
Qed.

Lemma prefix_sep_occurs (s : string) :
  occurs "/" s = 0%nat -> String.prefix "/" s = false.
Proof.
  destruct s as [| c s]; [reflexivity |]. cbn [occurs String.prefix].
  destruct (Ascii.eqb_spec c "/") as [-> | Hne]; [lia |].
  intros _. destruct (ascii_dec "/" c); [congruence | reflexivity].
Qed.

(** The first piece of a split: it holds no separator, and what follows it
    in the string is nothing or starts with the separator. *)
Lemma split_head (sep : ascii) (s : string) :
  exists h t rest,
    split sep s = h :: t /\ occurs sep h = 0%nat /\ s = h +:+ rest
    /\ (rest = EmptyString \/ exists r, rest = String sep r).
Proof.
  induction s as [| c s (h & t & rest & Hsplit & Hocc & Hs & Hrest)].
  - exists EmptyString, [], EmptyString. by repeat split; auto.
  - cbn [split]. destruct (Ascii.eqb_spec c sep) as [-> | Hne].
    + exists EmptyString, (split sep s), (String sep s). repeat split; eauto.
    + rewrite Hsplit. exists (String c h), t, rest. repeat split; try done.
      * cbn [occurs]. apply Ascii.eqb_neq in Hne. rewrite Hne. lia.
      * rewrite append_cons. by rewrite <- Hs.
Qed.

(** What [basename_from] returns holds no "/", and what precedes it is
    nothing or ends with "/". *)
Lemma basename_from_spec (p pre : string) :
  occurs "/" pre = 0%nat ->
  exists dir,
    pre +:+ p = dir +:+ basename_from (pre +:+ p) p
    /\ (dir = EmptyString \/ endswith_sep dir = true)
    /\ occurs "/" (basename_from (pre +:+ p) p) = 0%nat.
Proof.
  revert pre. induction p as [| c p IH]; intros pre Hpre.
  - exists EmptyString. cbn [basename_from]. repeat split; auto.
    rewrite occurs_append, Hpre. reflexivity.
  - cbn [basename_from]. destruct (Ascii.eqb_spec c "/") as [-> | Hne].
    + destruct (IH EmptyString eq_refl) as (dir & Hdir & Hend & Hocc).
      change (EmptyString +:+ p) with p in Hdir, Hocc.
      exists (pre +:+ String "/" dir). repeat split; [| | exact Hocc].
      * rewrite append_assoc, append_cons. by rewrite <- Hdir.
      * right. rewrite endswith_sep_append.
        destruct Hend as [-> | Hend]; [reflexivity |].
        destruct dir; [discriminate | exact Hend].
    + replace (pre +:+ String c p) with ((pre +:+ String c EmptyString) +:+ p)
        by (by rewrite append_assoc).
      apply IH. rewrite occurs_append, Hpre. cbn [occurs].
      apply Ascii.eqb_neq in Hne. by rewrite Hne.
Qed.

(** X16: the package name of a course is always defined: it is the
    stretch of [coursedir] that starts after the last "/" and stops before
    the first "." that follows; it holds neither "/" nor ".". *)
Theorem pkgname_shape (coursedir : string) :
  exists dir name rest,
    pkgname_of coursedir = Return name
    /\ coursedir = dir +:+ name +:+ rest
    /\ (dir = EmptyString \/ endswith_sep dir = true)
    /\ occurs "/" name = 0%nat /\ occurs "/" rest = 0%nat
    /\ occurs "." name = 0%nat
    /\ (rest = EmptyString \/ exists r, rest = String "." r).
Proof.
  destruct (basename_from_spec coursedir EmptyString eq_refl)
    as (dir & Hdir & Hend & Hocc).
  change (EmptyString +:+ coursedir) with coursedir in Hdir, Hocc.
  fold (basename coursedir) in Hdir, Hocc.
  destruct (split_head "." (basename coursedir))
    as (name & t & rest & Hsplit & Hdot & Hbase & Hrest).
  exists dir, name, rest. unfold pkgname_of. rewrite Hsplit.
  rewrite Hbase, occurs_append in Hocc.
  repeat split; try done; try lia.
  by rewrite <- Hbase.
Qed.

Example pkgname_samples :
  pkgname_of "/courses/demo.tar.gz" = Return "demo"
  /\ pkgname_of "/courses/demo" = Return "demo"
  /\ pkgname_of "demo.v2.tgz" = Return "demo"
  /\ pkgname_of "/courses.d/demo/" = Return EmptyString
  /\ pkgname_of "/courses/.hidden" = Return EmptyString.
Proof. repeat split; reflexivity. Qed.

(** ** [Course.load] *)

Section LoadProperties.
Context {File : Type}
  (isfile : string -> World -> bool)
  (extractfile : string -> string -> M File)
  (open_text : string -> M File)
  (close_file : File -> World -> World)
  (safe_load : File -> result value).

Lemma load_opened (coursedir name : string) (w w1 : World) (f : File) :
  pkgname_of coursedir = Return name ->
  open_course_yaml extractfile open_text coursedir name (isfile coursedir w) w
  = (Return f, w1) ->
  load isfile extractfile open_text close_file safe_load coursedir w
  = (match load_yaml safe_load f coursedir with
     | Return course =>
         Return (<["packaged" := VBool (isfile coursedir w)]> (
                 <["pkgname" := VStr name]> course))
     | Raise e => Raise e
     end, close_file f w1).
Proof.
  intros Hname Hopen. unfold load, bind, lift. rewrite Hname, Hopen.
  by destruct (load_yaml safe_load f coursedir).
Qed.

(** X17: a course that [load] returns records the directory it was given,
    the package name computed from that directory, and whether the
    directory is a file on the disk, whatever the document says under
    [coursedir], [pkgname] or [packaged]; its other attributes are those
    that [load_yaml] made; and the course file that was opened is closed. *)
Theorem load_records_location (coursedir : string) (w w' : World)
    (obj : gmap string value) :
  load isfile extractfile open_text close_file safe_load coursedir w
  = (Return obj, w') ->
  exists name f w1 loaded,
    pkgname_of coursedir = Return name
    /\ open_course_yaml extractfile open_text coursedir name (isfile coursedir w) w
       = (Return f, w1)
    /\ w' = close_file f w1
    /\ load_yaml safe_load f coursedir = Return loaded
    /\ obj !! "coursedir" = Some (VStr coursedir)
    /\ obj !! "pkgname" = Some (VStr name)
    /\ obj !! "packaged" = Some (VBool (isfile coursedir w))
    /\ (forall k, k <> "pkgname" -> k <> "packaged" -> obj !! k = loaded !! k).
Proof.
  destruct (pkgname_shape coursedir) as (dir & name & rest & Hname & _).
  unfold load, bind, lift. rewrite Hname.
  destruct (open_course_yaml _ _ _ _ _ w) as [[f | e] w1] eqn:Hopen; [| discriminate].
  destruct (load_yaml safe_load f coursedir) as [loaded | e] eqn:Hload; [| discriminate].
  intros [= <- <-]. exists name, f, w1, loaded. repeat split; try done.
  - rewrite !lookup_insert_ne by done.
    unfold load_yaml in Hload. destruct (safe_load f) as [y | e]; [| discriminate].
    destruct (first_document y) as [document | e] eqn:Hdoc.
    + destruct (loaded_object y coursedir document loaded Hdoc Hload)
        as (c & s & a & v & _ & _ & _ & _ & Hcd & ->).
      rewrite lookup_union_r by (by rewrite !lookup_delete_ne, Hcd).
      by simplify_map_eq.
    + unfold load_parsed in Hload. rewrite Hdoc in Hload. discriminate.
  - by simplify_map_eq.
  - by simplify_map_eq.
  - intros k Hk1 Hk2. by rewrite !lookup_insert_ne.
Qed.

(** Once [load] has opened the course file it closes it, whether the
    document then loads or not; an exception of the parser or of the
    constructor leaves [load] as it is. *)
Lemma load_closes_file (coursedir : string) (w w1 : World) (f : File) (e : exn) :
  open_course_yaml extractfile open_text coursedir
    (match pkgname_of coursedir with Return name => name | Raise _ => EmptyString end)
    (isfile coursedir w) w = (Return f, w1) ->
  (load isfile extractfile open_text close_file safe_load coursedir w).2
  = close_file f w1
  /\ (load_yaml safe_load f coursedir = Raise e ->
      load isfile extractfile open_text close_file safe_load coursedir w
      = (Raise e, close_file f w1)).
Proof.
  destruct (pkgname_shape coursedir) as (dir & name & rest & Hname & _).
  rewrite Hname. intros Hopen.
  rewrite (load_opened coursedir name w w1 f Hname Hopen).
  split; [reflexivity |]. by intros ->.
Qed.
End LoadProperties.

Lemma load_records_location_witness :
  load demo_isfile (demo_extractfile (demo_document []))
    (demo_open_text (demo_document [])) demo_close parsed_file
    "/courses/demo.tar.gz" (demo_world [])
  = (Return demo_loaded, demo_world [])
  /\ demo_loaded !! "coursedir" = Some (VStr "/courses/demo.tar.gz")
  /\ demo_loaded !! "pkgname" = Some (VStr "demo")
  /\ demo_loaded !! "packaged" = Some (VBool true).
Proof.
  assert (load demo_isfile (demo_extractfile (demo_document []))
            (demo_open_text (demo_document [])) demo_close parsed_file
            "/courses/demo.tar.gz" (demo_world [])
          = (Return demo_loaded, demo_world [])) as Hload
    by (vm_compute; reflexivity).
  destruct (load_records_location demo_isfile (demo_extractfile (demo_document []))
              (demo_open_text (demo_document [])) demo_close parsed_file
              "/courses/demo.tar.gz" (demo_world []) (demo_world []) demo_loaded Hload)
    as (name & f & w1 & loaded & Hname & _ & _ & _ & Hcd & Hpkg & Hpk & _).
  injection Hname as <-. by repeat split.
Defined.

(** ** Where the lesson file is looked for *)

Lemma endswith_sep_pretty_N_go (x : N) (s : string) :
  s <> EmptyString -> endswith_sep (pretty_N_go x s) = endswith_sep s.
Proof.
  revert s. induction (N.lt_wf_0 x) as [x _ IH]. intros s Hs.
  destruct (decide (x = 0)%N) as [-> | Hx]; [by rewrite pretty_N_go_0 |].
  rewrite pretty_N_go_step by lia.
  rewrite IH; [| apply N.div_lt; lia | discriminate].
  by destruct s.
Qed.

(** The name [mkdtemp] hands out is not empty and does not end in "/". *)
Lemma mkdtemp_name (w w0 : World) (tempdir : string) :
  mkdtemp w = (Return tempdir, w0) ->
  tempdir <> EmptyString /\ endswith_sep tempdir = false.
Proof.
  unfold mkdtemp. intros [= <- _]. split; [discriminate |].
  rewrite endswith_sep_append.
  unfold pretty, pretty_N. case_decide; [reflexivity |].
  rewrite pretty_N_go_step by lia.
  destruct (pretty_N_go_head (tmp_seq w) EmptyString) as (c & r & Heq & _); [lia |].
  rewrite pretty_N_go_step in Heq by lia. rewrite Heq.
  rewrite <- Heq, endswith_sep_pretty_N_go by discriminate.
  destruct (pretty_N_char_digit (tmp_seq w `mod` 10)%N) as [Hd _];
    [apply N.mod_lt; lia |].
  cbn [endswith_sep]. revert Hd. generalize (pretty_N_char (tmp_seq w `mod` 10)). intros c0 Hd.
  destruct c0 as [[] [] [] [] [] [] [] []]; vm_compute in Hd |- *; congruence.
Qed.

Lemma prefix_nil (s : string) : String.prefix EmptyString s = true.
Proof. by destruct s. Qed.

Lemma path_join_step (root b : string) :
  root <> EmptyString ->
  String.prefix "/" b = false ->
  path_join root [b]
  = root +:+ (if endswith_sep root then EmptyString else "/") +:+ b.
Proof.
  intros Hroot Hb. unfold path_join. cbn [fold_left]. rewrite Hb.
  destruct root as [| c root]; [done |]. cbn [String.eqb orb].
  by destruct (endswith_sep (String c root)).
Qed.

(** X18: the lesson file is looked for under the course root, in
    [lessons], under the slug followed by ".yaml", as long as the slug does
    not start with "/"; a slug that starts with "/" is taken as the whole
    path, outside the course.  For a packaged course whose package name is
    not empty the root is the package directory inside the temporary
    directory.  It is the file [run_lesson] opens: when opening it fails,
    the run fails with the same exception. *)
Theorem lesson_path (root slug : string) :
  root <> EmptyString ->
  (String.prefix "/" slug = false ->
   path_join root ["lessons"; slug +:+ ".yaml"]
   = root +:+ (if endswith_sep root then EmptyString else "/")
     +:+ "lessons/" +:+ slug +:+ ".yaml")
  /\ (String.prefix "/" slug = true ->
      path_join root ["lessons"; slug +:+ ".yaml"] = slug +:+ ".yaml")
  /\ (forall (w w0 : World) (tempdir name : string),
        mkdtemp w = (Return tempdir, w0) ->
        name <> EmptyString -> occurs "/" name = 0%nat ->
        root = path_join tempdir [name] ->
        String.prefix "/" slug = false ->
        path_join root ["lessons"; slug +:+ ".yaml"]
        = tempdir +:+ "/" +:+ name +:+ "/lessons/" +:+ slug +:+ ".yaml")
  /\ (forall (env : Env) (lessonname : string) (w w' : World) (e : exn),
        slugify env lessonname = Return slug ->
        String.prefix "/" slug = false ->
        open_r env (root +:+ (if endswith_sep root then EmptyString else "/")
                    +:+ "lessons/" +:+ slug +:+ ".yaml") w = (Raise e, w') ->
        run_lesson env root lessonname w = (Raise e, w')).
Proof.
  intros Hroot.
  assert (forall r, r <> EmptyString ->
            path_join r ["lessons"; slug +:+ ".yaml"]
            = path_join (r +:+ (if endswith_sep r then EmptyString else "/")
                         +:+ "lessons") [slug +:+ ".yaml"]) as Hfirst.
  { intros r Hr. change (path_join r ["lessons"; slug +:+ ".yaml"])
      with (path_join (path_join r ["lessons"]) [slug +:+ ".yaml"]).
    by rewrite (path_join_step r "lessons" Hr eq_refl). }
  assert (String.prefix "/" slug = false ->
          String.prefix "/" (slug +:+ ".yaml") = false) as Hfile.
  { destruct slug as [| c slug]; [reflexivity |]. rewrite append_cons.
    cbn [String.prefix]. destruct (ascii_dec "/" c); [| reflexivity].
    by rewrite prefix_nil. }
  assert (forall r, r <> EmptyString -> String.prefix "/" slug = false ->
            path_join r ["lessons"; slug +:+ ".yaml"]
            = r +:+ (if endswith_sep r then EmptyString else "/")
              +:+ "lessons/" +:+ slug +:+ ".yaml") as Hin.
  { intros r Hr Hslug. rewrite (Hfirst r Hr).
    rewrite path_join_step; [| by destruct r | by apply Hfile].
    rewrite endswith_sep_append.
    destruct (endswith_sep r); by rewrite append_assoc. }
  split; [by apply Hin | split; [| split]].
  - intros Hslug. rewrite (Hfirst root Hroot). unfold path_join. cbn [fold_left].
    destruct slug as [| c slug]; [discriminate |]. rewrite append_cons.
    cbn [String.prefix] in Hslug |- *.
    destruct (ascii_dec "/" c); [by rewrite prefix_nil | discriminate].
  - intros w w0 tempdir name Hmk Hname Hocc -> Hslug.
    destruct (mkdtemp_name w w0 tempdir Hmk) as [Hne Hend].
    rewrite (path_join_step tempdir name Hne (prefix_sep_occurs name Hocc)), Hend.
    rewrite Hin; [| by destruct tempdir | done].
    rewrite endswith_sep_append.
    destruct name as [| c name]; [done |].
    change ("/" +:+ String c name) with (String "/" (String c name)). cbv iota.
    change (endswith_sep (String "/" (String c name)))
      with (endswith_sep (String c name)).
    rewrite (endswith_sep_occurs _ Hocc). by rewrite append_assoc.
  - intros env lessonname w w' e Hslugify Hslug Hopen.
    unfold run_lesson, open_and_load, bind, lift.
    by rewrite Hslugify, (Hin root Hroot Hslug), Hopen.
Qed.

Lemma lesson_path_witness :
  path_join (path_join "/tmp/tmp0" ["demo"]) ["lessons"; "intro" +:+ ".yaml"]
  = "/tmp/tmp0" +:+ "/" +:+ "demo" +:+ "/lessons/" +:+ "intro" +:+ ".yaml".
Proof.
  apply (proj1 (proj2 (proj2 (lesson_path (path_join "/tmp/tmp0" ["demo"]) "intro"
                                ltac:(discriminate))))
           (demo_world []) (mkWorld ["/tmp/tmp0"] [] 1 [] []) "/tmp/tmp0" "demo");
    try reflexivity.
  discriminate.
Defined.
